(** * Bibliothermes: a shallow embedding of [main.go]

    The bookmark manager keeps one in-memory [AppState]; browsers'
    bookmarks are folded into it through [addBookmark].  This file embeds
    the storage, import and command-dispatch code of [main.go] as Rocq
    functions and proves properties of them.

    Conventions.
    - Go's [int] is the 64-bit two's-complement integer of the platforms
      the program names (darwin, linux, windows on amd64/arm64); values are
      [Z] and every arithmetic result goes through [wrapInt].
    - Go strings are byte strings: [string] (a list of [ascii] bytes), and
      [==] on them is [String.eqb].
    - A [*AppState] receiver that a method mutates becomes explicit state
      passing: the method takes the state and returns the new one.
    - Go maps are [gmap]s; the order in which [range] visits a map is not
      fixed by the language, the environment chooses it ([mapOrder]).
    - What the program obtains from its environment (files, directories,
      databases, processes, library routines whose result the language
      leaves open) is read from an [OS] record.
    - Lines written to standard output are returned as a list of strings. *)

From Stdlib Require Import ZArith Ascii String List DecimalString DecimalPos DecimalZ.
From Stdlib Require Import Sorting.Sorted OrderedTypeEx Lia.
From stdpp Require Import base gmap strings list fin_maps.

Set Warnings "-register-all".

Local Open Scope string_scope.
Local Open Scope list_scope.
Local Open Scope Z_scope.

(** ** Go's [int] *)

Definition intBits : Z := 64.
Definition maxInt : Z := 2 ^ (intBits - 1) - 1.
Definition minInt : Z := - 2 ^ (intBits - 1).

(** Two's-complement wrap-around of an arithmetic result. *)
Definition wrapInt (z : Z) : Z :=
  (z + 2 ^ (intBits - 1)) mod 2 ^ intBits - 2 ^ (intBits - 1).

Definition isInt (z : Z) : Prop := minInt <= z <= maxInt.

(** A call either returns or panics (run-time error). *)
Inductive outcome (A : Type) : Type :=
| Returned (a : A)
| Panicked (msg : string).
Arguments Returned {A} a.
Arguments Panicked {A} msg.

(** ** Data structures *)

Record Bookmark : Type := mkBookmark {
  ID : Z;
  Name : string;
  URL : string;
  Favorite : bool
}.

Record Config : Type := mkConfig {
  DefaultBrowserCmd : string
}.

(** The field [Config Config] of the source is [config] here, the type and
    the projection cannot share a name. *)
Record AppState : Type := mkAppState {
  Bookmarks : list Bookmark;
  config : Config;
  nextID : Z
}.

#[global] Instance Bookmark_eq_dec : EqDecision Bookmark.
Proof. solve_decision. Defined.
#[global] Instance Config_eq_dec : EqDecision Config.
Proof. solve_decision. Defined.
#[global] Instance AppState_eq_dec : EqDecision AppState.
Proof. solve_decision. Defined.

(** ** Merge policy: [addBookmark] *)

(** The loop [for _, b := range s.Bookmarks { if b.URL == url { return } }]:
    [true] when it returns early. *)
Fixpoint urlKnown (bs : list Bookmark) (url : string) : bool :=
  match bs with
  | [] => false
  | b :: bs' => if String.eqb (URL b) url then true else urlKnown bs' url
  end.

Definition addBookmark (s : AppState) (name url : string) : AppState :=
  if urlKnown (Bookmarks s) url then s
  else {| Bookmarks := Bookmarks s ++ [mkBookmark (nextID s) name url false];
          config := config s;
          nextID := wrapInt (nextID s + 1) |}.

(** A sequence of merge calls, in order. *)
Definition addBookmarks (pairs : list (string * string)) (s : AppState) : AppState :=
  fold_left (fun st p => addBookmark st (fst p) (snd p)) pairs s.

(** ** Storage: [loadState]

    [os.ReadFile] and [json.Unmarshal] are the environment's; their
    possible results are the constructors below.  [json.Unmarshal(data,
    &state)] writes into the state that [loadState] allocated, so what it
    leaves is the decoded [bookmarks] and [config] (absent keys keep the
    zero value), the unexported [nextID] is never touched.  A document that
    is the literal [null] sets the pointer [state] itself to nil. *)
Inductive unmarshalState : Type :=
| UnmarshalError (err : string)
| UnmarshalNull
| Unmarshaled (bs : list Bookmark) (cfg : Config).

Inductive readState : Type :=
| NotExist (saveErr : option string)   (* no file; result of the saveState that follows *)
| ReadFailed (err : string)
| FileData (d : unmarshalState).

(** [switch runtime.GOOS] of the first run. *)
Definition defaultBrowserCmd (goos : string) : string :=
  if String.eqb goos "darwin" then "open"
  else if String.eqb goos "linux" then "xdg-open"
  else if String.eqb goos "windows" then "cmd /c start"
  else "".

(** The loop over [state.Bookmarks] that keeps the largest [ID] seen in
    [maxID]. *)
Fixpoint maxIDLoop (bs : list Bookmark) (maxID : Z) : Z :=
  match bs with
  | [] => maxID
  | b :: bs' => maxIDLoop bs' (if ID b >? maxID then ID b else maxID)
  end.

(** [loadState] returns a state pointer (nil on the error paths) and an
    error. *)
Definition loadState (goos : string) (file : readState)
  : outcome (option AppState * option string) :=
  let state := {| Bookmarks := []; config := mkConfig ""; nextID := 1 |} in
  match file with
  | NotExist saveErr =>
      let state := {| Bookmarks := Bookmarks state;
                      config := mkConfig (defaultBrowserCmd goos);
                      nextID := nextID state |} in
      Returned (Some state, saveErr)
  | ReadFailed err =>
      Returned (None, Some ("could not read bookmarks.json: " +:+ err))
  | FileData (UnmarshalError err) =>
      Returned (None, Some ("could not unmarshal JSON: " +:+ err))
  | FileData UnmarshalNull =>
      Panicked "invalid memory address or nil pointer dereference"
  | FileData (Unmarshaled bs cfg) =>
      let state := {| Bookmarks := bs; config := cfg; nextID := nextID state |} in
      if (0 <? Z.of_nat (length (Bookmarks state))) then
        let maxID := maxIDLoop (Bookmarks state) 0 in
        Returned (Some {| Bookmarks := Bookmarks state;
                          config := config state;
                          nextID := wrapInt (maxID + 1) |}, None)
      else Returned (Some state, None)
  end.

(** ** Chromium bookmark trees *)

Inductive chromeBookmarkNode : Type :=
  mkNode (Type_ : string) (Name_ : string) (URL_ : string)
         (Children : list chromeBookmarkNode).

Definition nodeType (n : chromeBookmarkNode) : string :=
  match n with mkNode t _ _ _ => t end.
Definition nodeName (n : chromeBookmarkNode) : string :=
  match n with mkNode _ nm _ _ => nm end.
Definition nodeURL (n : chromeBookmarkNode) : string :=
  match n with mkNode _ _ u _ => u end.
Definition nodeChildren (n : chromeBookmarkNode) : list chromeBookmarkNode :=
  match n with mkNode _ _ _ cs => cs end.

(** [node.Type == "url" && node.URL != ""] *)
Definition isURLLeaf (n : chromeBookmarkNode) : bool :=
  String.eqb (nodeType n) "url" && negb (String.eqb (nodeURL n) "").

Fixpoint parseChromeBookmarks (node : chromeBookmarkNode) (state : AppState)
  {struct node} : AppState :=
  match node with
  | mkNode t nm u children =>
      let state :=
        if String.eqb t "url" && negb (String.eqb u "")
        then addBookmark state nm u else state in
      (fix rangeChildren (cs : list chromeBookmarkNode) (state : AppState) : AppState :=
         match cs with
         | [] => state
         | child :: cs' => rangeChildren cs' (parseChromeBookmarks child state)
         end) children state
  end.

(** ** JSON documents and [encoding/json]'s decoding into the import's types *)

(** A syntactically valid JSON value; object members in document order,
    keys and strings already unescaped. *)
Inductive json : Type :=
| JNull
| JBool (b : bool)
| JNum (literal : string)
| JStr (s : string)
| JArr (items : list json)
| JObj (members : list (string * json)).

(** Field names are matched exactly or, failing that, after case folding.
    [foldName] upper-cases ASCII letters and replaces a rune by the smallest
    rune of its simple-fold orbit; the only runes outside ASCII whose orbit
    reaches an ASCII letter are U+017F (long s, bytes C5 BF) and U+212A
    (Kelvin sign, bytes E2 84 AA).  Every other byte is kept, which cannot
    produce a match with an all-ASCII field name. *)
Definition upperByte (c : ascii) : ascii :=
  let n := nat_of_ascii c in
  if (97 <=? n)%nat && (n <=? 122)%nat then ascii_of_nat (n - 32) else c.

Fixpoint foldName (s : string) : string :=
  match s with
  | EmptyString => EmptyString
  | String c1 rest =>
      match nat_of_ascii c1, rest with
      | 197%nat, String c2 rest2 =>
          if (nat_of_ascii c2 =? 191)%nat then String "S" (foldName rest2)
          else String c1 (foldName rest)
      | 226%nat, String c2 (String c3 rest3) =>
          if (nat_of_ascii c2 =? 132)%nat && (nat_of_ascii c3 =? 170)%nat
          then String "K" (foldName rest3)
          else String c1 (foldName rest)
      | _, _ => String (upperByte c1) (foldName rest)
      end
  end.

(** A JSON value stored into a Go [string]: a JSON string is copied, [null]
    leaves the destination as it is, anything else is an
    [UnmarshalTypeError]. *)
Definition storeString (v : json) (dst : string) : option string :=
  match v with
  | JStr s => Some s
  | JNull => Some dst
  | _ => None
  end.

Inductive nodeField : Type := FType | FName | FURL | FChildren.

(** The field of [chromeBookmarkNode] a key selects, by its [json] tag:
    an exact match first, then a match after folding. *)
Definition nodeFieldOf (key : string) : option nodeField :=
  if String.eqb key "type" then Some FType
  else if String.eqb key "name" then Some FName
  else if String.eqb key "url" then Some FURL
  else if String.eqb key "children" then Some FChildren
  else if String.eqb (foldName key) "TYPE" then Some FType
  else if String.eqb (foldName key) "NAME" then Some FName
  else if String.eqb (foldName key) "URL" then Some FURL
  else if String.eqb (foldName key) "CHILDREN" then Some FChildren
  else None.

Definition zeroNode : chromeBookmarkNode := mkNode "" "" "" [].

(** Decoding of a JSON value into a [chromeBookmarkNode] that already holds
    [dst]; [None] when the decoder records a type error (then
    [json.Unmarshal] returns a non-nil error).  Members are stored in
    document order, a key that selects no field is skipped, an array
    element is decoded into the element the slice already has at that
    index, or into a zero node. *)
Fixpoint decodeNode (v : json) (dst : chromeBookmarkNode) {struct v}
  : option chromeBookmarkNode :=
  match v with
  | JNull => Some dst
  | JObj members =>
      (fix decodeFields (ms : list (string * json)) (dst : chromeBookmarkNode)
         : option chromeBookmarkNode :=
         match ms with
         | [] => Some dst
         | (key, val) :: ms' =>
             match nodeFieldOf key with
             | None => decodeFields ms' dst
             | Some FType =>
                 match storeString val (nodeType dst) with
                 | Some t => decodeFields ms' (mkNode t (nodeName dst) (nodeURL dst) (nodeChildren dst))
                 | None => None
                 end
             | Some FName =>
                 match storeString val (nodeName dst) with
                 | Some nm => decodeFields ms' (mkNode (nodeType dst) nm (nodeURL dst) (nodeChildren dst))
                 | None => None
                 end
             | Some FURL =>
                 match storeString val (nodeURL dst) with
                 | Some u => decodeFields ms' (mkNode (nodeType dst) (nodeName dst) u (nodeChildren dst))
                 | None => None
                 end
             | Some FChildren =>
                 match val with
                 | JNull => decodeFields ms' (mkNode (nodeType dst) (nodeName dst) (nodeURL dst) [])
                 | JArr items =>
                     match
                       (fix decodeItems (items : list json) (old : list chromeBookmarkNode)
                          : option (list chromeBookmarkNode) :=
                          match items with
                          | [] => Some []
                          | item :: items' =>
                              match decodeNode item (hd zeroNode old) with
                              | Some c =>
                                  match decodeItems items' (tl old) with
                                  | Some cs => Some (c :: cs)
                                  | None => None
                                  end
                              | None => None
                              end
                          end) items (nodeChildren dst)
                     with
                     | Some cs => decodeFields ms' (mkNode (nodeType dst) (nodeName dst) (nodeURL dst) cs)
                     | None => None
                     end
                 | _ => None
                 end
             end
         end) members dst
  | _ => None
  end.

(** [root.Roots] is the only field of the destination of
    [importFromChrome]. *)
Definition isRootsKey (key : string) : bool :=
  String.eqb key "roots" || String.eqb (foldName key) "ROOTS".

(** A JSON object stored into a [map[string]chromeBookmarkNode]: every
    member is decoded into a fresh zero node and assigned under its key. *)
Fixpoint decodeRootsMap (ms : list (string * json)) (m : gmap string chromeBookmarkNode)
  : option (gmap string chromeBookmarkNode) :=
  match ms with
  | [] => Some m
  | (key, val) :: ms' =>
      match decodeNode val zeroNode with
      | Some n => decodeRootsMap ms' (<[key := n]> m)
      | None => None
      end
  end.

Fixpoint decodeRootFields (ms : list (string * json)) (roots : gmap string chromeBookmarkNode)
  : option (gmap string chromeBookmarkNode) :=
  match ms with
  | [] => Some roots
  | (key, val) :: ms' =>
      if isRootsKey key then
        match val with
        | JNull => decodeRootFields ms' ∅
        | JObj members =>
            match decodeRootsMap members roots with
            | Some roots' => decodeRootFields ms' roots'
            | None => None
            end
        | _ => None
        end
      else decodeRootFields ms' roots
  end.

(** [json.Unmarshal(data, &root)] on a valid document: the decoded
    [root.Roots] (a nil map ranges like the empty one), or [None] for a
    non-nil error. *)
Definition unmarshalRoot (doc : json) : option (gmap string chromeBookmarkNode) :=
  match doc with
  | JNull => Some ∅
  | JObj members => decodeRootFields members ∅
  | _ => None
  end.

(** ** The environment *)

(** What [json.Unmarshal]'s scanner makes of a file's bytes. *)
Inductive jsonText : Type :=
| Invalid (err : string)
| Valid (doc : json).

Inductive fileRead : Type :=
| ReadErr (err : string)
| Data (d : jsonText).

(** A directory tree as [os.Lstat] and [os.ReadDir] show it: the entries
    of a directory are in [ReadDir]'s order (sorted by file name), with the
    error [ReadDir] reported, if any. *)
Inductive fsEntry : Type :=
| File (name : string)
| Dir (name : string) (readErr : option string) (entries : list fsEntry).

Definition entryName (d : fsEntry) : string :=
  match d with File n => n | Dir n _ _ => n end.
Definition entryIsDir (d : fsEntry) : bool :=
  match d with File _ => false | Dir _ _ _ => true end.

(** The result of the import's query on a Firefox database: a row is
    [None] when [rows.Scan] fails on it. *)
Inductive sqlResult : Type :=
| OpenFailed (err : string)
| QueryFailed (err : string)
| Rows (rows : list (option (string * string))).

Record OS : Type := mkOS {
  GOOS : string;                                   (* runtime.GOOS *)
  HomeDir : option string;                         (* user.Current(): usr.HomeDir, None when usr is nil *)
  Join : string -> string -> string;               (* filepath.Join *)
  Stat : string -> bool;                           (* os.Stat(path) succeeds *)
  ReadFile : string -> fileRead;                   (* os.ReadFile, then the JSON scanner *)
  Lstat : string -> option fsEntry;                (* the tree at a path, None on error *)
  Query : string -> sqlResult;                     (* sql.Open(uri), db.Query, rows *)
  mapOrder : forall V : Type, list (string * V) -> list (string * V);
                                                   (* order of a range over a map *)
  sortSlice : (Bookmark -> Bookmark -> bool) -> list Bookmark -> list Bookmark;
                                                   (* sort.Slice *)
  ToLower : string -> string;                      (* strings.ToLower *)
  Start : string -> list string -> option string;  (* exec.Command(..).Start() *)
  WriteFile : string -> list Bookmark * Config -> option string
                                                   (* json.MarshalIndent, os.WriteFile *)
}.

(** A range over a map visits every entry once. *)
Definition rangesMaps (os : OS) : Prop :=
  forall (V : Type) (l : list (string * V)), Permutation (mapOrder os V l) l.

(** What [sort.Slice] asks of its [less]: a strict weak ordering. *)
Definition strictWeakOrder {A : Type} (less : A -> A -> bool) : Prop :=
  (forall a, less a a = false) /\
  (forall a b c, less a b = true -> less b c = true -> less a c = true) /\
  (forall a b c, less a b = false -> less b c = false -> less a c = false).

(** No element is less than one placed before it. *)
Definition sortedBy {A : Type} (less : A -> A -> bool) (l : list A) : Prop :=
  StronglySorted (fun a b => less b a = false) l.

(** [sort.Slice] rearranges the slice (not necessarily stably) so that it
    is sorted by [less]. *)
Definition sortsSlices (os : OS) : Prop :=
  forall less : Bookmark -> Bookmark -> bool,
    strictWeakOrder less ->
    forall l, Permutation (sortSlice os less l) l /\ sortedBy less (sortSlice os less l).

(** [for k, v := range m] as the list of entries visited. *)
Definition rangeMap {V : Type} (os : OS) (m : gmap string V) : list (string * V) :=
  mapOrder os V (map_to_list m).

(** ** Browser bookmark importer *)

(** [range root.Roots] calling [parseChromeBookmarks] on every root. *)
Definition parseRoots (roots : list (string * chromeBookmarkNode)) (state : AppState)
  : AppState :=
  fold_left (fun st kv => parseChromeBookmarks (snd kv) st) roots state.

(** [importFromChrome] returns the error; the state is passed through. *)
Definition importFromChrome (os : OS) (path : string) (state : AppState)
  : AppState * option string :=
  match ReadFile os path with
  | ReadErr err => (state, Some ("could not read file: " +:+ err))
  | Data (Invalid err) => (state, Some ("could not parse JSON: " +:+ err))
  | Data (Valid doc) =>
      match unmarshalRoot doc with
      | None => (state, Some "could not parse JSON: json: cannot unmarshal")
      | Some roots => (parseRoots (rangeMap os roots) state, None)
      end
  end.

(** The loop over [rows]: a row whose [Scan] fails is skipped. *)
Definition scanRows (rows : list (option (string * string))) (state : AppState)
  : AppState :=
  fold_left (fun st row =>
               match row with
               | Some (title, url) => addBookmark st title url
               | None => st
               end) rows state.

Definition importFromFirefox (os : OS) (path : string) (state : AppState)
  : AppState * option string :=
  let immutableURI := "file:" +:+ path +:+ "?_immutable=1" in
  match Query os immutableURI with
  | OpenFailed err => (state, Some ("could not open firefox sqlite db: " +:+ err))
  | QueryFailed err => (state, Some ("could not query firefox bookmarks: " +:+ err))
  | Rows rows => (scanRows rows state, None)
  end.

(** The tables that the [switch] of [getBrowserPaths] fills for the home
    directory [homeDir]. *)
Definition browserPathTables (os : OS) (homeDir : string)
  : gmap string (list string) * gmap string string :=
  if String.eqb (GOOS os) "darwin" then
    let appSupport := Join os homeDir "Library/Application Support" in
    (<["Edge" := [Join os appSupport "Microsoft Edge/Default/Bookmarks"] ]>
       (<["Brave" := [Join os appSupport "BraveSoftware/Brave-Browser/Default/Bookmarks"] ]>
          (<["Chrome" := [Join os appSupport "Google/Chrome/Default/Bookmarks"] ]> ∅)),
     <["firefox_dir" := Join os appSupport "Firefox/Profiles"]> ∅)
  else if String.eqb (GOOS os) "linux" then
    let configDir := Join os homeDir ".config" in
    (<["Brave" := [Join os configDir "BraveSoftware/Brave-Browser/Default/Bookmarks"] ]>
       (<["Chrome" := [Join os configDir "google-chrome/Default/Bookmarks"] ]> ∅),
     <["firefox_dir" := Join os homeDir ".mozilla/firefox"]> ∅)
  else if String.eqb (GOOS os) "windows" then
    let appData := Join os homeDir "AppData/Local" in
    (<["Edge" := [Join os appData "Microsoft/Edge/User Data/Default/Bookmarks"] ]>
       (<["Brave" := [Join os appData "BraveSoftware/Brave-Browser/User Data/Default/Bookmarks"] ]>
          (<["Chrome" := [Join os appData "Google/Chrome/User Data/Default/Bookmarks"] ]> ∅)),
     <["firefox_dir" := Join os homeDir "AppData/Roaming/Mozilla/Firefox/Profiles"]> ∅)
  else (∅, ∅).

(** [getBrowserPaths] discards the error of [user.Current()] and reads
    [usr.HomeDir]: when the lookup failed [usr] is nil and the read panics. *)
Definition getBrowserPaths (os : OS)
  : outcome (gmap string (list string) * gmap string string) :=
  match HomeDir os with
  | None => Panicked "invalid memory address or nil pointer dereference"
  | Some homeDir => Returned (browserPathTables os homeDir)
  end.

(** *** [filepath.WalkDir]

    The walk of the Go library, over a state [St] that the callback
    updates.  [fn path d err] gets [d = None] only when [Lstat] of the root
    failed. *)
Inductive walkErr : Type :=
| SkipDir
| SkipAll
| WalkError (err : string).

Section WalkDir.
Context {St : Type}.
Variable join : string -> string -> string.
Variable fn : string -> option fsEntry -> option string -> St -> St * option walkErr.

(** [if err == SkipDir && d.IsDir() { err = nil }], for a directory. *)
Definition skippedDir (r : St * option walkErr) : St * option walkErr :=
  match r with
  | (st, Some SkipDir) => (st, None)
  | _ => r
  end.

Fixpoint walkDir (path : string) (d : fsEntry) (st : St) {struct d}
  : St * option walkErr :=
  match d with
  | File _ => fn path (Some d) None st
  | Dir _ readErr entries =>
      match fn path (Some d) None st with
      | (st, Some err) => skippedDir (st, Some err)
      | (st, None) =>
          let r := match readErr with
                   | Some e => fn path (Some d) (Some e) st
                   | None => (st, None)
                   end in
          match r with
          | (st, Some err) => skippedDir (st, Some err)
          | (st, None) =>
              (fix rangeDirs (dirs : list fsEntry) (st : St) : St * option walkErr :=
                 match dirs with
                 | [] => (st, None)
                 | d1 :: dirs' =>
                     match walkDir (join path (entryName d1)) d1 st with
                     | (st, Some SkipDir) => (st, None)      (* break *)
                     | (st, Some err) => (st, Some err)
                     | (st, None) => rangeDirs dirs' st
                     end
                 end) entries st
          end
      end
  end.

Definition WalkDir (lstat : string -> option fsEntry) (root : string) (st : St)
  : St * option walkErr :=
  let r := match lstat root with
           | None => fn root None (Some "lstat") st
           | Some d => walkDir root d st
           end in
  match r with
  | (st, Some SkipDir) | (st, Some SkipAll) => (st, None)
  | _ => r
  end.
End WalkDir.

(** *** [importBookmarks] *)

(** The state and the local variables that the loops and the walk's
    closure update, and the lines printed so far. *)
Record importVars : Type := mkVars {
  ivState : AppState;
  foundAnyBrowser : bool;
  foundFirefoxDB : bool;
  stdout : list string
}.

Definition Itoa (z : Z) : string := NilZero.string_of_int (Z.to_int z).

(** Body of the inner loop over the paths of one browser. *)
Definition importChromePath (os : OS) (browser : string) (v : importVars) (path : string)
  : importVars :=
  if Stat os path then
    match importFromChrome os path (ivState v) with
    | (st, None) =>
        mkVars st true (foundFirefoxDB v)
               (stdout v ++ ["Successfully checked for " +:+ browser +:+ " bookmarks."])
    | (st, Some _) => mkVars st (foundAnyBrowser v) (foundFirefoxDB v) (stdout v)
    end
  else v.

Definition importChromeLike (os : OS) (chromeLikePaths : gmap string (list string))
  (v : importVars) : importVars :=
  fold_left (fun v bp => fold_left (importChromePath os (fst bp)) (snd bp) v)
            (rangeMap os chromeLikePaths) v.

(** The closure passed to [filepath.WalkDir]. *)
Definition firefoxWalkFn (os : OS) (path : string) (d : option fsEntry)
  (err : option string) (v : importVars) : importVars * option walkErr :=
  match err, d with
  | None, Some d =>
      if negb (entryIsDir d) && String.eqb (entryName d) "places.sqlite" then
        match importFromFirefox os path (ivState v) with
        | (st, Some importErr) =>
            (mkVars st (foundAnyBrowser v) true
                    (stdout v ++ ["Notice: Failed to import from Firefox at " +:+ path
                                  +:+ ": " +:+ importErr]),
             Some SkipDir)
        | (st, None) =>
            (mkVars st true true
                    (stdout v ++ ["Successfully checked for Firefox bookmarks."]),
             Some SkipDir)
        end
      else (v, None)
  | _, _ => (v, None)
  end.

Definition importFirefox (os : OS) (firefoxDirs : gmap string string) (v : importVars)
  : importVars :=
  match firefoxDirs !! "firefox_dir" with
  | Some firefoxDir =>
      let v := mkVars (ivState v) (foundAnyBrowser v) false (stdout v) in
      let v := fst (WalkDir (Join os) (firefoxWalkFn os) (Lstat os) firefoxDir v) in
      if negb (foundFirefoxDB v)
      then mkVars (ivState v) (foundAnyBrowser v) (foundFirefoxDB v)
                  (stdout v ++ ["Notice: Could not find a Firefox 'places.sqlite' file."])
      else v
  | None => v
  end.

(** [importBookmarks] returns the new state and the lines it printed, or
    panics in [getBrowserPaths]. *)
Definition importBookmarks (os : OS) (s : AppState) : outcome (AppState * list string) :=
  match getBrowserPaths os with
  | Panicked msg => Panicked msg
  | Returned (chromeLikePaths, firefoxDirs) =>
      let initialCount := Z.of_nat (length (Bookmarks s)) in
      let v := mkVars s false false [] in
      let v := importChromeLike os chromeLikePaths v in
      let v := importFirefox os firefoxDirs v in
      let s := ivState v in
      let newCount := Z.of_nat (length (Bookmarks s)) - initialCount in
      Returned
        (s,
         stdout v ++
         [if 0 <? newCount
          then "✅ Imported " +:+ Itoa newCount +:+ " new bookmarks. Run 'save' to persist them."
          else if foundAnyBrowser v then "No new bookmarks found."
          else "Could not find any supported browser bookmarks on default paths."])
  end.

(** ** REPL commands *)

(** *** Library routines on strings *)

Definition byteIn (lo hi : nat) (c : ascii) : bool :=
  ((lo <=? nat_of_ascii c) && (nat_of_ascii c <=? hi))%nat.

(** Width in bytes of the white-space rune ([unicode.IsSpace]) that [s]
    starts with, 0 when it starts with none: U+0009..U+000D, U+0020,
    U+0085, U+00A0, U+1680, U+2000..U+200A, U+2028, U+2029, U+202F, U+205F,
    U+3000 in UTF-8. *)
Definition spaceWidth (s : string) : nat :=
  match s with
  | EmptyString => 0%nat
  | String c rest =>
      if byteIn 9 13 c || byteIn 32 32 c then 1%nat
      else
        match rest with
        | String c2 rest2 =>
            if byteIn 194 194 c && (byteIn 133 133 c2 || byteIn 160 160 c2) then 2%nat
            else
              match rest2 with
              | String c3 _ =>
                  if byteIn 225 225 c && byteIn 154 154 c2 && byteIn 128 128 c3 then 3%nat
                  else if byteIn 226 226 c && byteIn 128 128 c2
                          && (byteIn 128 138 c3 || byteIn 168 169 c3 || byteIn 175 175 c3)
                       then 3%nat
                  else if byteIn 226 226 c && byteIn 129 129 c2 && byteIn 159 159 c3 then 3%nat
                  else if byteIn 227 227 c && byteIn 128 128 c2 && byteIn 128 128 c3 then 3%nat
                  else 0%nat
              | EmptyString => 0%nat
              end
        | EmptyString => 0%nat
        end
  end.

Definition flushField (cur : string) : list string :=
  match cur with
  | EmptyString => []
  | _ => [cur]
  end.

(** [skip] counts the bytes still to drop of the white-space rune being
    read, [cur] is the field read so far. *)
Fixpoint fieldsFrom (s : string) (skip : nat) (cur : string) : list string :=
  match s with
  | EmptyString => flushField cur
  | String c rest =>
      match skip with
      | S k => fieldsFrom rest k cur
      | O =>
          match spaceWidth s with
          | O => fieldsFrom rest 0%nat (cur +:+ String c EmptyString)
          | S k => flushField cur ++ fieldsFrom rest k EmptyString
          end
      end
  end.

(** [strings.Fields] *)
Definition Fields (s : string) : list string := fieldsFrom s 0%nat EmptyString.

(** [strings.Join] *)
Definition JoinStrings (elems : list string) (sep : string) : string :=
  String.concat sep elems.

Fixpoint parseDigits (s : string) (acc : Z) : option Z :=
  match s with
  | EmptyString => Some acc
  | String c rest =>
      if byteIn 48 57 c
      then parseDigits rest (10 * acc + (Z.of_nat (nat_of_ascii c) - 48))
      else None
  end.

(** [strconv.Atoi]: an optional sign, then decimal digits, at least one;
    [None] for a syntax or a range error. *)
Definition Atoi (s : string) : option Z :=
  let '(neg, digits) :=
    match s with
    | String "+" rest => (false, rest)
    | String "-" rest => (true, rest)
    | _ => (false, s)
    end in
  match digits with
  | EmptyString => None
  | _ =>
      match parseDigits digits 0 with
      | Some n =>
          let v := if neg then - n else n in
          if (minInt <=? v) && (v <=? maxInt) then Some v else None
      | None => None
      end
  end.

(** *** ANSI escape codes for styling *)

Definition ESC : string := String (ascii_of_nat 27) EmptyString.
Definition BEL : string := String (ascii_of_nat 7) EmptyString.
Definition Reset : string := ESC +:+ "[0m".
Definition Bold : string := ESC +:+ "[1m".
Definition Yellow : string := ESC +:+ "[33m".
Definition Cyan : string := ESC +:+ "[36m".
Definition Blue : string := ESC +:+ "[34m".
Definition Gray : string := ESC +:+ "[90m".

Definition bookmarksFile : string := "bookmarks.json".

(** [saveState]: the exported fields are what is marshalled. *)
Definition saveState (os : OS) (s : AppState) : option string :=
  WriteFile os bookmarksFile (Bookmarks s, config s).

Definition printHelp : list string :=
  [ String (ascii_of_nat 10) "--- Bookmark Manager Help ---";
    "  list              - Show bookmarks as clickable hyperlinks";
    "  list fav          - Show only favorite bookmarks as hyperlinks";
    "  list links        - Show bookmarks with visible URLs (for basic terminals)";
    "  open <id>         - Open the bookmark with the given ID";
    "  fav <id>          - Toggle favorite status for a bookmark";
    "  import            - Scan for new bookmarks from installed browsers";
    "  set-browser <cmd> - Set the command to open links (e.g., 'firefox')";
    "  save              - Save all changes to bookmarks.json";
    "  help              - Show this help message";
    "  exit              - Quit the program";
    "---------------------------" ].

(** *** [handleCommand] *)

(** The comparison given to [sort.Slice]. *)
Definition lessByName (os : OS) (a b : Bookmark) : bool :=
  String.ltb (ToLower os (Name a)) (ToLower os (Name b)).

(** The line printed for one bookmark by [list]. *)
Definition listLine (showLinksFormat : bool) (b : Bookmark) : string :=
  let favMarker := if Favorite b then Yellow +:+ "★ " +:+ Reset else "" in
  if showLinksFormat then
    Bold +:+ Cyan +:+ "[" +:+ Itoa (ID b) +:+ "]" +:+ Reset +:+ " " +:+ favMarker
         +:+ Name b +:+ " - " +:+ Gray +:+ URL b +:+ Reset
  else
    let linkText := ESC +:+ "]8;;" +:+ URL b +:+ BEL +:+ Blue +:+ Name b +:+ Reset
                        +:+ ESC +:+ "]8;;" +:+ BEL in
    Bold +:+ Cyan +:+ "[" +:+ Itoa (ID b) +:+ "]" +:+ Reset +:+ " " +:+ favMarker +:+ linkText.

(** The printing loop of [list]: the lines, [count] is their number. *)
Fixpoint listLines (showFavsOnly showLinksFormat : bool) (bs : list Bookmark)
  : list string :=
  match bs with
  | [] => []
  | b :: bs' =>
      if showFavsOnly && negb (Favorite b)
      then listLines showFavsOnly showLinksFormat bs'
      else listLine showLinksFormat b :: listLines showFavsOnly showLinksFormat bs'
  end.

Definition cmdList (os : OS) (s : AppState) (args : list string)
  : AppState * list string :=
  let showFavsOnly := match args with a :: _ => String.eqb a "fav" | [] => false end in
  let showLinksFormat :=
    match args with
    | a :: _ => negb (String.eqb a "fav") && String.eqb a "links"
    | [] => false
    end in
  let s := {| Bookmarks := sortSlice os (lessByName os) (Bookmarks s);
              config := config s;
              nextID := nextID s |} in
  let lines := listLines showFavsOnly showLinksFormat (Bookmarks s) in
  (s, match lines with
      | [] => [if showFavsOnly then "No favorites found." else "No bookmarks found."]
      | _ => lines
      end).

(** The loop of [open]: the first bookmark whose [ID] is [id]. *)
Fixpoint findByID (bs : list Bookmark) (id : Z) : option Bookmark :=
  match bs with
  | [] => None
  | b :: bs' => if ID b =? id then Some b else findByID bs' id
  end.

Definition cmdOpen (os : OS) (s : AppState) (args : list string)
  : outcome (list string) :=
  match args with
  | [] => Returned ["Usage: open <id>"]
  | a :: _ =>
      match Atoi a with
      | None => Returned ["Invalid ID."]
      | Some id =>
          match findByID (Bookmarks s) id with
          | Some b =>
              let opening := "Opening '" +:+ Name b +:+ "'..." in
              match Fields (DefaultBrowserCmd (config s)) with
              | [] => Panicked "index out of range [0] with length 0"
              | cmd0 :: cmdRest =>
                  match Start os cmd0 (cmdRest ++ [URL b]) with
                  | Some err => Returned [opening; "Error: " +:+ err]
                  | None => Returned [opening]
                  end
              end
          | None => Returned ["ID not found."]
          end
      end
  end.

(** The loop of [fav]: toggles the first bookmark whose [ID] is [id] and
    reports its name and new flag. *)
Fixpoint toggleFav (bs : list Bookmark) (id : Z) : option (list Bookmark * string) :=
  match bs with
  | [] => None
  | b :: bs' =>
      if ID b =? id then
        let b' := mkBookmark (ID b) (Name b) (URL b) (negb (Favorite b)) in
        let status := if negb (Favorite b') then "removed from" else "added to" in
        Some (b' :: bs', "Bookmark '" +:+ Name b +:+ "' " +:+ status +:+ " favorites.")
      else
        match toggleFav bs' id with
        | Some (bs'', line) => Some (b :: bs'', line)
        | None => None
        end
  end.

Definition cmdFav (s : AppState) (args : list string) : AppState * list string :=
  match args with
  | [] => (s, ["Usage: fav <id>"])
  | a :: _ =>
      match Atoi a with
      | None => (s, ["Invalid ID."])
      | Some id =>
          match toggleFav (Bookmarks s) id with
          | Some (bs, line) =>
              ({| Bookmarks := bs; config := config s; nextID := nextID s |}, [line])
          | None => (s, ["ID not found."])
          end
      end
  end.

Definition cmdSetBrowser (s : AppState) (args : list string) : AppState * list string :=
  match args with
  | [] => (s, ["Usage: set-browser <cmd>";
               "Current: '" +:+ DefaultBrowserCmd (config s) +:+ "'"])
  | _ =>
      let cmd := JoinStrings args " " in
      ({| Bookmarks := Bookmarks s; config := mkConfig cmd; nextID := nextID s |},
       ["Browser command set to: '" +:+ cmd +:+ "'"])
  end.

Definition cmdSave (os : OS) (s : AppState) : list string :=
  match saveState os s with
  | Some err => ["Error: " +:+ err]
  | None => ["✅ State saved to " +:+ bookmarksFile]
  end.

(** [handleCommand] returns [shouldExit], with the new state and the lines
    printed, or panics. *)
Definition handleCommand (os : OS) (s : AppState) (input : string)
  : outcome (bool * AppState * list string) :=
  match Fields input with
  | [] => Returned (false, s, [])
  | command :: args =>
      if String.eqb command "list" || String.eqb command "ls" then
        let '(s, out) := cmdList os s args in Returned (false, s, out)
      else if String.eqb command "open" then
        match cmdOpen os s args with
        | Returned out => Returned (false, s, out)
        | Panicked msg => Panicked msg
        end
      else if String.eqb command "fav" then
        let '(s, out) := cmdFav s args in Returned (false, s, out)
      else if String.eqb command "import" then
        match importBookmarks os s with
        | Returned (s, out) => Returned (false, s, out)
        | Panicked msg => Panicked msg
        end
      else if String.eqb command "set-browser" then
        let '(s, out) := cmdSetBrowser s args in Returned (false, s, out)
      else if String.eqb command "save" then
        Returned (false, s, cmdSave os s)
      else if String.eqb command "help" then
        Returned (false, s, printHelp)
      else if String.eqb command "exit" || String.eqb command "quit" then
        Returned (true, s, [])
      else Returned (false, s, ["Unknown command: '" +:+ command +:+ "'."])
  end.

(** ** Properties stated about the program *)

(** The identifiers of a collection. *)
Definition ids (bs : list Bookmark) : list Z := map ID bs.

(** Identifiers are unique and the next identifier to assign exceeds every
    identifier in use. *)
Definition idInvariant (s : AppState) : Prop :=
  NoDup (ids (Bookmarks s)) /\ Forall (fun b => ID b < nextID s) (Bookmarks s).

(** Bookmarks that the merge calls appended to [s]. *)
Definition appended (l : list (string * string)) (s : AppState) : Z :=
  Z.of_nat (length (Bookmarks (addBookmarks l s))) - Z.of_nat (length (Bookmarks s)).

(** The largest of a list of identifiers, [d] for the empty list. *)
Definition maxOf (d : Z) (l : list Z) : Z := fold_right Z.max d l.

(** The next identifier as the specification words it: the largest
    existing identifier plus one, or one for an empty collection. *)
Definition nextIDBySpec (bs : list Bookmark) : Z :=
  match ids bs with
  | [] => 1
  | i :: l => maxOf i l + 1
  end.

(** The merge calls that [parseChromeBookmarks] makes on a tree, as the
    list of their arguments, in the order of the calls. *)
Fixpoint merges (node : chromeBookmarkNode) : list (string * string) :=
  match node with
  | mkNode t nm u children =>
      (if String.eqb t "url" && negb (String.eqb u "") then [(nm, u)] else [])
      ++ flat_map merges children
  end.

(** Pre-order traversal of a tree: a node, then its children's subtrees
    from first to last. *)
Fixpoint preorder (node : chromeBookmarkNode) : list chromeBookmarkNode :=
  match node with
  | mkNode _ _ _ children => node :: flat_map preorder children
  end.

Definition pairOf (node : chromeBookmarkNode) : string * string :=
  (nodeName node, nodeURL node).

(** Number of nodes of a tree, at any depth, that are tagged ["url"] and
    have a non-empty URL. *)
Fixpoint countURLLeaves (node : chromeBookmarkNode) : nat :=
  match node with
  | mkNode _ _ _ children =>
      ((if isURLLeaf node then 1 else 0) + sum_list (map countURLLeaves children))%nat
  end.

(** The merge calls of an import of a file, for the roots in the order
    the range visits them. *)
Definition mergesOfRoots (roots : list (string * chromeBookmarkNode))
  : list (string * string) :=
  flat_map (fun kv => merges (snd kv)) roots.

(** Strings made of printable ASCII bytes other than the space. *)
Fixpoint plainBytes (s : string) : bool :=
  match s with
  | EmptyString => true
  | String c rest => byteIn 33 126 c && plainBytes rest
  end.

(** A document has a top-level [roots] mapping when it is an object with a
    member [roots] whose value is an object. *)
Definition hasRootsMapping (doc : json) : Prop :=
  exists members nodes, doc = JObj members /\ ("roots", JObj nodes) ∈ members.

(** JSON values that are neither an object nor [null]. *)
Definition notObjectOrNull (v : json) : bool :=
  match v with
  | JNull | JObj _ => false
  | _ => true
  end.

(** [s'] extends [s]: the bookmarks of [s] are the first bookmarks of [s'],
    unchanged, and the configuration is the same. *)
Definition extends (s s' : AppState) : Prop :=
  Bookmarks s `prefix_of` Bookmarks s' /\ config s' = config s.

Definition extendsVars (v v' : importVars) : Prop := extends (ivState v) (ivState v').

(** The two sets of variables hold the same state. *)
Definition sameState (v v' : importVars) : Prop := ivState v' = ivState v.

(** A Firefox profile directory that holds the plain files [files], and
    the effect on the variables of the walk's closure reaching the
    [places.sqlite] of a profile found at [dir]. *)
Definition profileDir (name : string) (files : list string) : fsEntry :=
  Dir name None (map File files).

Definition readProfile (os : OS) (dir : string) (v : importVars) : importVars :=
  fst (firefoxWalkFn os (Join os dir "places.sqlite") (Some (File "places.sqlite")) None v).

Definition holdsDatabase (files : list string) : bool :=
  existsb (String.eqb "places.sqlite") files.

(** ** Documents as [encoding/json]'s scanner sees them *)

(** Nesting depth of a JSON value: the number of arrays and objects open
    at its deepest point. *)
Fixpoint jsonDepth (v : json) : Z :=
  match v with
  | JArr items =>
      1 + (fix deepest (l : list json) : Z :=
             match l with
             | [] => 0
             | x :: l' => Z.max (jsonDepth x) (deepest l')
             end) items
  | JObj members =>
      1 + (fix deepest (l : list (string * json)) : Z :=
             match l with
             | [] => 0
             | (_, x) :: l' => Z.max (jsonDepth x) (deepest l')
             end) members
  | _ => 0
  end.

(** The scanner's [maxNestingDepth]. *)
Definition maxNestingDepth : Z := 10000.

(** What [json.Unmarshal]'s validity scan makes of the text of the JSON
    value [doc]: it is refused when it is nested deeper than
    [maxNestingDepth]. *)
Definition scanJSON (doc : json) : jsonText :=
  if jsonDepth doc <=? maxNestingDepth then Valid doc else Invalid "exceeded max depth".

(** The roots of a document in the order in which the document lists them:
    the order of the specification's pre-order traversal of the whole
    tree. *)
Definition documentRoots (doc : json) : list (string * chromeBookmarkNode) :=
  match doc with
  | JObj members =>
      flat_map (fun member =>
                  match snd member with
                  | JObj nodes =>
                      if isRootsKey (fst member)
                      then omap (fun kv => match decodeNode (snd kv) zeroNode with
                                           | Some n => Some (fst kv, n)
                                           | None => None
                                           end) nodes
                      else []
                  | _ => []
                  end) members
  | _ => []
  end.

(** The (name, URL) pairs of a list of roots: for each root in turn, the
    nodes of its tree, in pre-order, that are tagged ["url"] and have a
    non-empty URL. *)
Definition flattenRoots (roots : list (string * chromeBookmarkNode))
  : list (string * string) :=
  flat_map (fun kv => map pairOf (List.filter isURLLeaf (preorder (snd kv)))) roots.

(** ** An example environment

    A Linux machine of user [u]: Chrome's bookmark file holds a folder with
    the bookmark A and a sub-folder with the bookmark B; the Firefox
    directory holds two profiles, each with its own [places.sqlite].  Maps
    are ranged in the order of [map_to_list] or in the reverse order,
    [sort.Slice] is an insertion sort, [strings.ToLower] lowers ASCII
    letters. *)

Definition exampleBookmarksDoc : json :=
  JObj [("roots", JObj [("bookmark_bar",
    JObj [("type", JStr "folder");
          ("children", JArr [
             JObj [("type", JStr "url"); ("name", JStr "A"); ("url", JStr "http://a")];
             JObj [("type", JStr "folder");
                   ("children", JArr [
                      JObj [("type", JStr "url"); ("name", JStr "B");
                            ("url", JStr "http://b")]])]])])])].

Definition exampleFirefoxDir : fsEntry :=
  Dir "firefox" None
      [ Dir "a.default" None [File "places.sqlite"; File "prefs.js"];
        Dir "b.default-release" None [File "cookies.sqlite"; File "places.sqlite"];
        File "profiles.ini" ].

Fixpoint lowerASCII (s : string) : string :=
  match s with
  | EmptyString => EmptyString
  | String c rest =>
      String (if byteIn 65 90 c then ascii_of_nat (nat_of_ascii c + 32) else c)
             (lowerASCII rest)
  end.

Fixpoint insertSorted {A : Type} (less : A -> A -> bool) (x : A) (l : list A) : list A :=
  match l with
  | [] => [x]
  | y :: l' => if less x y then x :: l else y :: insertSorted less x l'
  end.

Definition insertionSort {A : Type} (less : A -> A -> bool) (l : list A) : list A :=
  fold_right (insertSorted less) [] l.

Definition exampleOS (reversed : bool) : OS := {|
  GOOS := "linux";
  HomeDir := Some "/home/u";
  Join := fun dir name => dir +:+ "/" +:+ name;
  Stat := fun path => String.eqb path "/home/u/.config/google-chrome/Default/Bookmarks";
  ReadFile := fun path =>
    if String.eqb path "/home/u/.config/google-chrome/Default/Bookmarks"
    then Data (Valid exampleBookmarksDoc) else ReadErr "no such file or directory";
  Lstat := fun path =>
    if String.eqb path "/home/u/.mozilla/firefox" then Some exampleFirefoxDir else None;
  Query := fun uri =>
    if String.eqb uri "file:/home/u/.mozilla/firefox/a.default/places.sqlite?_immutable=1"
    then Rows [Some ("Site A", "http://a"); None; Some ("Site C", "http://c")]
    else if String.eqb uri
              "file:/home/u/.mozilla/firefox/b.default-release/places.sqlite?_immutable=1"
    then Rows [Some ("Site D", "http://d")]
    else OpenFailed "unable to open database file";
  mapOrder := fun V l => if reversed then rev l else l;
  sortSlice := insertionSort;
  ToLower := lowerASCII;
  Start := fun _ _ => None;
  WriteFile := fun _ _ => None
|}.

Definition emptyState : AppState :=
  {| Bookmarks := []; config := {| DefaultBrowserCmd := "" |}; nextID := 1 |}.

(** The environment [os] with every file holding the document [doc]. *)
Definition withDocument (os : OS) (doc : json) : OS := {|
  GOOS := GOOS os;
  HomeDir := HomeDir os;
  Join := Join os;
  Stat := Stat os;
  ReadFile := fun _ => Data (Valid doc);
  Lstat := Lstat os;
  Query := Query os;
  mapOrder := mapOrder os;
  sortSlice := sortSlice os;
  ToLower := ToLower os;
  Start := Start os;
  WriteFile := WriteFile os
|}.

(** The collection that an import run on the example environment builds
    from the empty one. *)
Definition exampleImported : AppState :=
  {| Bookmarks := [ {| ID := 1; Name := "A"; URL := "http://a"; Favorite := false |};
                    {| ID := 2; Name := "B"; URL := "http://b"; Favorite := false |};
                    {| ID := 3; Name := "Site C"; URL := "http://c"; Favorite := false |};
                    {| ID := 4; Name := "Site D"; URL := "http://d"; Favorite := false |} ];
     config := {| DefaultBrowserCmd := "" |};
     nextID := 5 |}.

Definition exampleImportOutput : list string :=
  [ "Successfully checked for Chrome bookmarks.";
    "Successfully checked for Firefox bookmarks.";
    "Successfully checked for Firefox bookmarks.";
    "✅ Imported 4 new bookmarks. Run 'save' to persist them." ].

(** A bookmark file with two roots: the bar with the bookmark A, then the
    other bookmarks with the bookmark B. *)
Definition twoRootsDoc : json :=
  JObj [("roots", JObj [
    ("bookmark_bar",
     JObj [("type", JStr "folder");
           ("children", JArr [JObj [("type", JStr "url"); ("name", JStr "A");
                                    ("url", JStr "http://a")]])]);
    ("other",
     JObj [("type", JStr "folder");
           ("children", JArr [JObj [("type", JStr "url"); ("name", JStr "B");
                                    ("url", JStr "http://b")]])])])].

Definition twoRoots : gmap string chromeBookmarkNode :=
  <["other" := mkNode "folder" "" "" [mkNode "url" "B" "http://b" []]]>
    (<["bookmark_bar" := mkNode "folder" "" "" [mkNode "url" "A" "http://a" []]]> ∅).

(** A bookmark file whose single root is a chain of 5000 nested folders
    around the bookmark A. *)
Definition deepFoldersDoc : json :=
  JObj [("roots", JObj [("bookmark_bar",
    Pos.iter (fun inner => JObj [("type", JStr "folder"); ("children", JArr [inner])])
             (JObj [("type", JStr "url"); ("name", JStr "A"); ("url", JStr "http://a")])
             5000%positive)])].

(** The environment [os] with every file holding the text of [doc]. *)
Definition withFileText (os : OS) (doc : json) : OS := {|
  GOOS := GOOS os;
  HomeDir := HomeDir os;
  Join := Join os;
  Stat := Stat os;
  ReadFile := fun _ => Data (scanJSON doc);
  Lstat := Lstat os;
  Query := Query os;
  mapOrder := mapOrder os;
  sortSlice := sortSlice os;
  ToLower := ToLower os;
  Start := Start os;
  WriteFile := WriteFile os
|}.

(** ** The merges of an import run

    The (name, URL) pairs that each part of [importBookmarks] hands to
    [addBookmark], in the order of the calls, computed from the
    environment alone. *)

Definition chromeFileMerges (os : OS) (path : string) : list (string * string) :=
  match ReadFile os path with
  | Data (Valid doc) =>
      match unmarshalRoot doc with
      | Some roots => mergesOfRoots (rangeMap os roots)
      | None => []
      end
  | _ => []
  end.

Definition chromePathMerges (os : OS) (path : string) : list (string * string) :=
  if Stat os path then chromeFileMerges os path else [].

Definition chromeLikeMerges (os : OS) (chromeLikePaths : gmap string (list string))
  : list (string * string) :=
  flat_map (fun bp => flat_map (chromePathMerges os) (snd bp)) (rangeMap os chromeLikePaths).

(** The rows that [rows.Scan] reads. *)
Definition scannedRows (rows : list (option (string * string))) : list (string * string) :=
  omap id rows.

Definition firefoxFileMerges (os : OS) (path : string) : list (string * string) :=
  match Query os ("file:" +:+ path +:+ "?_immutable=1") with
  | Rows rows => scannedRows rows
  | _ => []
  end.

(** The closure of the walk, keeping the pairs instead of merging them. *)
Definition firefoxLogFn (os : OS) (path : string) (d : option fsEntry)
  (err : option string) (log : list (string * string))
  : list (string * string) * option walkErr :=
  match err, d with
  | None, Some d =>
      if negb (entryIsDir d) && String.eqb (entryName d) "places.sqlite"
      then (log ++ firefoxFileMerges os path, Some SkipDir)
      else (log, None)
  | _, _ => (log, None)
  end.

Definition firefoxMerges (os : OS) (firefoxDirs : gmap string string)
  : list (string * string) :=
  match firefoxDirs !! "firefox_dir" with
  | Some firefoxDir => fst (WalkDir (Join os) (firefoxLogFn os) (Lstat os) firefoxDir [])
  | None => []
  end.

Definition importMerges (os : OS) : list (string * string) :=
  match getBrowserPaths os with
  | Returned (chromeLikePaths, firefoxDirs) =>
      chromeLikeMerges os chromeLikePaths ++ firefoxMerges os firefoxDirs
  | Panicked _ => []
  end.

(** Two environments that show the same machine and differ at most in the
    order of their ranges and in the library routines. *)
Definition sameMachine (os1 os2 : OS) : Prop :=
  GOOS os1 = GOOS os2 /\ HomeDir os1 = HomeDir os2 /\ Join os1 = Join os2 /\
  Stat os1 = Stat os2 /\ ReadFile os1 = ReadFile os2 /\ Lstat os1 = Lstat os2 /\
  Query os1 = Query os2.

(** No two bookmarks of the collection have the same URL. *)
Definition uniqueURLs (s : AppState) : Prop := NoDup (map URL (Bookmarks s)).

(** Two results of a walk's callback, or of a walk, that carry related
    states and the same error. *)
Definition simulates {St1 St2 : Type} (Q : St1 -> St2 -> Prop)
  (r1 : St1 * option walkErr) (r2 : St2 * option walkErr) : Prop :=
  Q (fst r1) (fst r2) /\ snd r1 = snd r2.

(** ** Tokens *)

(** No white-space rune starts at any byte of [w]. *)
Fixpoint noSpace (w : string) : Prop :=
  match w with
  | EmptyString => True
  | String _ rest => spaceWidth w = 0%nat /\ noSpace rest
  end.

(** The same for [cur] when [s] follows it. *)
Fixpoint noSpaceBefore (s : string) (cur : string) : Prop :=
  match cur with
  | EmptyString => True
  | String _ rest => spaceWidth (cur +:+ s) = 0%nat /\ noSpaceBefore s rest
  end.

Definition isToken (w : string) : Prop := w <> "" /\ noSpace w.

(** ** Effects of a command *)

(** The ways in which a command that returns can have changed the state:
    not at all, by sorting the collection, by toggling a favorite flag, by
    an import run, or by replacing the browser command with the tokens
    given, joined by single spaces. *)
Inductive commandEffect (os : OS) (s : AppState) : AppState -> Prop :=
| EffectNone : commandEffect os s s
| EffectSort :
    commandEffect os s {| Bookmarks := sortSlice os (lessByName os) (Bookmarks s);
                          config := config s; nextID := nextID s |}
| EffectFav id bs line :
    toggleFav (Bookmarks s) id = Some (bs, line) ->
    commandEffect os s {| Bookmarks := bs; config := config s; nextID := nextID s |}
| EffectImport s' out :
    importBookmarks os s = Returned (s', out) -> commandEffect os s s'
| EffectSetBrowser args :
    args <> [] -> Forall isToken args ->
    commandEffect os s {| Bookmarks := Bookmarks s;
                          config := mkConfig (JoinStrings args " ");
                          nextID := nextID s |}.

(** What identifies a bookmark: everything but the favorite flag. *)
Definition entry (b : Bookmark) : Z * string * string := (ID b, Name b, URL b).

Definition flipFavorite (b : Bookmark) : Bookmark :=
  mkBookmark (ID b) (Name b) (URL b) (negb (Favorite b)).

(** The next identifier is one more than the largest identifier in use,
    and than 0. *)
Definition tightCounter (s : AppState) : Prop :=
  nextID s = maxOf 0 (ids (Bookmarks s)) + 1.

(** Growth of the collection from [s] to [s']. *)
Definition growth (s s' : AppState) : Z :=
  Z.of_nat (length (Bookmarks s')) - Z.of_nat (length (Bookmarks s)).

(** A file named [places.sqlite] lies somewhere in the tree (a directory
    of that name does not count). *)
Fixpoint hasDatabaseFile (d : fsEntry) : bool :=
  match d with
  | File name => String.eqb name "places.sqlite"
  | Dir _ _ entries => existsb hasDatabaseFile entries
  end.

(** The command names [handleCommand] knows. *)
Definition knownCommands : list string :=
  ["list"; "ls"; "open"; "fav"; "import"; "set-browser"; "save"; "help"; "exit"; "quit"].

(** ** The session: [main]

    Standard input is the list of lines that the scanner yields before it
    stops (end of input or a read error).  Standard output and standard
    error are lists of the strings written, a prompt being one of them. *)

(** The line that [loadState] prints on a first run. *)
Definition loadStateOutput (file : readState) : list string :=
  match file with
  | NotExist _ => ["No 'bookmarks.json' found. Creating a new one."]
  | _ => []
  end.

(** The loop of [main]: prompt, read a line, run it, until the input ends
    or a command asks to exit. *)
Fixpoint repl (os : OS) (stdin : list string) (state : AppState) (out : list string)
  : outcome (AppState * list string) :=
  match stdin with
  | [] => Returned (state, out ++ ["> "])
  | line :: stdin' =>
      match handleCommand os state line with
      | Panicked msg => Panicked msg
      | Returned (true, state', printed) => Returned (state', out ++ ["> "] ++ printed)
      | Returned (false, state', printed) => repl os stdin' state' (out ++ ["> "] ++ printed)
      end
  end.

Record mainResult : Type := mkMainResult {
  exitCode : Z;
  mainStdout : list string;
  mainStderr : list string;
  written : option (list Bookmark * Config)   (* what the final saveState was given *)
}.

Definition main (os : OS) (file : readState) (stdin : list string) : outcome mainResult :=
  match loadState (GOOS os) file with
  | Panicked msg => Panicked msg
  | Returned (_, Some err) =>
      Returned (mkMainResult 1 (loadStateOutput file) ["Fatal error: " +:+ err] None)
  | Returned (None, None) => Panicked "invalid memory address or nil pointer dereference"
  | Returned (Some state, None) =>
      let welcome := "Welcome to the Go Bookmark Manager! Type 'help' for commands." in
      match repl os stdin state (loadStateOutput file ++ [welcome]) with
      | Panicked msg => Panicked msg
      | Returned (state, out) =>
          match saveState os state with
          | Some err =>
              Returned (mkMainResult 0 out ["Could not save on exit: " +:+ err]
                                     (Some (Bookmarks state, config state)))
          | None =>
              Returned (mkMainResult 0
                          (out ++ [String (ascii_of_nat 10) "Changes saved. Goodbye! 👋"]) []
                          (Some (Bookmarks state, config state)))
          end
      end
  end.

(** A command line whose first token is [exit] or [quit]. *)
Definition isExitLine (line : string) : Prop :=
  exists command args, Fields line = command :: args /\ (command = "exit" \/ command = "quit").

(** The browser command has at least one token. *)
Definition hasBrowserCmd (s : AppState) : Prop :=
  Fields (DefaultBrowserCmd (config s)) <> [].

(** * Properties *)

(** ** Go's [int] *)

Lemma wrapInt_id z : isInt z -> wrapInt z = z.
Proof.
  unfold isInt, wrapInt, minInt, maxInt, intBits. intros H.
  rewrite Z.mod_small; lia.
Qed.

Lemma wrapInt_isInt z : isInt (wrapInt z).
Proof.
  unfold isInt, wrapInt, minInt, maxInt, intBits.
  pose proof (Z.mod_pos_bound (z + 2 ^ (64 - 1)) (2 ^ 64) ltac:(lia)). lia.
Qed.

Lemma wrapInt_succ z : isInt z -> z < maxInt -> wrapInt (z + 1) = z + 1.
Proof. intros [H1 H2] H3. apply wrapInt_id. unfold isInt. lia. Qed.

(** ** The merge policy *)

Lemma urlKnown_spec bs url :
  urlKnown bs url = true <-> exists b, b ∈ bs /\ URL b = url.
Proof.
  induction bs as [|b bs IH]; simpl.
  - split; [discriminate|]. intros (b & Hb & _). by apply elem_of_nil in Hb.
  - destruct (String.eqb_spec (URL b) url) as [Heq|Hne].
    + split; [|done]. intros _. exists b. split; [left|done].
    + rewrite IH. split.
      * intros (b' & Hin & Hu). exists b'. split; [by right|done].
      * intros (b' & Hin & Hu). apply elem_of_cons in Hin as [->|Hin]; [done|].
        by exists b'.
Qed.

Lemma urlKnown_false bs url :
  urlKnown bs url = false <-> forall b, b ∈ bs -> URL b <> url.
Proof.
  rewrite <- not_true_iff_false, urlKnown_spec. split.
  - intros H b Hb Hu. apply H. by exists b.
  - intros H (b & Hb & Hu). by apply (H b).
Qed.

Lemma urlKnown_app bs bs' url :
  urlKnown (bs ++ bs') url = urlKnown bs url || urlKnown bs' url.
Proof.
  induction bs as [|b bs IH]; simpl; [done|].
  by destruct (String.eqb (URL b) url).
Qed.

Lemma addBookmark_known s name url :
  urlKnown (Bookmarks s) url = true -> addBookmark s name url = s.
Proof. unfold addBookmark. by intros ->. Qed.

Lemma addBookmark_new s name url :
  urlKnown (Bookmarks s) url = false ->
  addBookmark s name url =
  {| Bookmarks := Bookmarks s ++ [mkBookmark (nextID s) name url false];
     config := config s;
     nextID := wrapInt (nextID s + 1) |}.
Proof. unfold addBookmark. by intros ->. Qed.

Lemma addBookmark_config s name url : config (addBookmark s name url) = config s.
Proof. unfold addBookmark. by destruct (urlKnown _ _). Qed.

Lemma addBookmark_prefix s name url :
  Bookmarks s `prefix_of` Bookmarks (addBookmark s name url).
Proof.
  unfold addBookmark. destruct (urlKnown _ _); simpl; [done|].
  by apply prefix_app_r.
Qed.

Lemma addBookmark_knows s name url :
  urlKnown (Bookmarks (addBookmark s name url)) url = true.
Proof.
  unfold addBookmark. destruct (urlKnown (Bookmarks s) url) eqn:E; simpl; [done|].
  rewrite urlKnown_app. simpl. rewrite String.eqb_refl. apply orb_true_r.
Qed.

Lemma urlKnown_prefix bs bs' url :
  bs `prefix_of` bs' -> urlKnown bs url = true -> urlKnown bs' url = true.
Proof. intros [k ->] H. rewrite urlKnown_app, H. done. Qed.

Lemma addBookmarks_cons p l s :
  addBookmarks (p :: l) s = addBookmarks l (addBookmark s (fst p) (snd p)).
Proof. done. Qed.

Lemma addBookmarks_app l1 l2 s :
  addBookmarks (l1 ++ l2) s = addBookmarks l2 (addBookmarks l1 s).
Proof. unfold addBookmarks. apply fold_left_app. Qed.

Lemma addBookmarks_prefix l s :
  Bookmarks s `prefix_of` Bookmarks (addBookmarks l s).
Proof.
  revert s. induction l as [|p l IH]; intros s; [done|].
  rewrite addBookmarks_cons. etrans; [apply addBookmark_prefix | apply IH].
Qed.

Lemma addBookmarks_config l s : config (addBookmarks l s) = config s.
Proof.
  revert s. induction l as [|p l IH]; intros s; [done|].
  by rewrite addBookmarks_cons, IH, addBookmark_config.
Qed.

Lemma addBookmarks_knows l s p :
  p ∈ l -> urlKnown (Bookmarks (addBookmarks l s)) (snd p) = true.
Proof.
  revert s. induction l as [|q l IH]; intros s Hin.
  - by apply elem_of_nil in Hin.
  - rewrite addBookmarks_cons. apply elem_of_cons in Hin as [->|Hin].
    + eapply urlKnown_prefix; [apply addBookmarks_prefix | apply addBookmark_knows].
    + by apply IH.
Qed.

Lemma addBookmarks_noop l s :
  (forall p, p ∈ l -> urlKnown (Bookmarks s) (snd p) = true) ->
  addBookmarks l s = s.
Proof.
  induction l as [|p l IH]; intros H; [done|].
  rewrite addBookmarks_cons, addBookmark_known.
  - apply IH. intros q Hq. apply H. by right.
  - apply H. by left.
Qed.

(** C3. Merge policy of [addBookmark]: when some bookmark of the collection
    has exactly the given URL (byte-for-byte equality of the strings) the
    call changes nothing at all; otherwise the collection grows by exactly
    one bookmark, placed last, that carries the state's next identifier,
    the given name and URL and [Favorite = false], the configuration and
    the bookmarks already present are untouched and the next identifier
    advances by one (in [int] arithmetic). *)
Theorem addBookmark_merge_policy (s : AppState) (name url : string) :
  ((exists b, b ∈ Bookmarks s /\ URL b = url) -> addBookmark s name url = s) /\
  (~ (exists b, b ∈ Bookmarks s /\ URL b = url) ->
     Bookmarks (addBookmark s name url)
       = Bookmarks s ++ [{| ID := nextID s; Name := name; URL := url; Favorite := false |}]
     /\ config (addBookmark s name url) = config s
     /\ nextID (addBookmark s name url) = wrapInt (nextID s + 1)).
Proof.
  split.
  - intros H. apply addBookmark_known. by apply urlKnown_spec.
  - intros H. rewrite addBookmark_new; [done|].
    apply not_true_iff_false. by rewrite urlKnown_spec.
Qed.

(** The two branches of C3 on a collection holding [http://a]: the same
    URL is dropped, a URL that differs only in letter case is appended. *)
Lemma addBookmark_merge_policy_witness :
  let s := {| Bookmarks := [{| ID := 1; Name := "A"; URL := "http://a"; Favorite := true |}];
              config := {| DefaultBrowserCmd := "open" |};
              nextID := 2 |} in
  addBookmark s "again" "http://a" = s /\
  Bookmarks (addBookmark s "upper" "HTTP://A")
    = Bookmarks s ++ [{| ID := 2; Name := "upper"; URL := "HTTP://A"; Favorite := false |}].
Proof.
  intros s. split.
  - apply (proj1 (addBookmark_merge_policy s "again" "http://a")).
    exists {| ID := 1; Name := "A"; URL := "http://a"; Favorite := true |}.
    split; [left | reflexivity].
  - apply (proj2 (addBookmark_merge_policy s "upper" "HTTP://A")).
    intros (b & Hb & Hu). apply list_elem_of_singleton in Hb. subst b. discriminate Hu.
Defined.

(** ** Identifier uniqueness and monotonicity *)

Lemma addBookmark_length s name url :
  (length (Bookmarks s) <= length (Bookmarks (addBookmark s name url)))%nat.
Proof. apply prefix_length, addBookmark_prefix. Qed.

Lemma addBookmarks_length l s :
  (length (Bookmarks s) <= length (Bookmarks (addBookmarks l s)))%nat.
Proof. apply prefix_length, addBookmarks_prefix. Qed.

Lemma idInvariant_addBookmark s name url :
  isInt (nextID s) ->
  (urlKnown (Bookmarks s) url = false -> nextID s < maxInt) ->
  idInvariant s -> idInvariant (addBookmark s name url).
Proof.
  intros Hint Hroom [Hnd Hlt]. unfold addBookmark.
  destruct (urlKnown (Bookmarks s) url) eqn:E; [done|].
  specialize (Hroom eq_refl). unfold idInvariant; simpl.
  rewrite wrapInt_succ by done. split.
  - unfold ids. rewrite map_app. simpl. apply NoDup_app. split; [done|]. split.
    + intros x Hx Hx'. apply list_elem_of_singleton in Hx'. subst x.
      apply list_elem_of_fmap in Hx as (b & Hb & Hin).
      rewrite Forall_forall in Hlt. specialize (Hlt b Hin). lia.
    + apply NoDup_singleton.
  - apply Forall_app. split.
    + eapply Forall_impl; [exact Hlt|]. simpl. intros; lia.
    + constructor; [simpl; lia | constructor].
Qed.

Lemma addBookmark_nextID_isInt s name url :
  isInt (nextID s) -> isInt (nextID (addBookmark s name url)).
Proof.
  unfold addBookmark. destruct (urlKnown _ _); simpl; [done|].
  intros _. apply wrapInt_isInt.
Qed.

Lemma addBookmark_cases s name url :
  (urlKnown (Bookmarks s) url = true /\ addBookmark s name url = s) \/
  (urlKnown (Bookmarks s) url = false /\
   length (Bookmarks (addBookmark s name url)) = S (length (Bookmarks s)) /\
   nextID (addBookmark s name url) = wrapInt (nextID s + 1)).
Proof.
  unfold addBookmark. destruct (urlKnown (Bookmarks s) url); [by left|right].
  simpl. rewrite length_app. simpl. split; [done|]. split; [lia|done].
Qed.

(** C4, as the code has it.  Starting from a collection whose identifiers
    are unique and all below the stored next identifier (an [int]), any
    finite sequence of merge calls keeps the identifiers unique and below
    the next identifier, provided the counter does not run past the largest
    [int]: the next identifier plus the number of bookmarks the calls
    append is at most [maxInt]. *)
Theorem idInvariant_addBookmarks (l : list (string * string)) (s : AppState) :
  isInt (nextID s) ->
  nextID s + appended l s <= maxInt ->
  idInvariant s ->
  idInvariant (addBookmarks l s).
Proof.
  revert s. induction l as [|[name url] l IH]; intros s Hint Hroom Hinv; [done|].
  rewrite addBookmarks_cons. simpl fst; simpl snd.
  unfold appended in *. rewrite addBookmarks_cons in Hroom. simpl fst in Hroom; simpl snd in Hroom.
  pose proof (addBookmarks_length l (addBookmark s name url)) as Hlen.
  destruct (addBookmark_cases s name url) as [[E Hs]|(E & Hl & Hn)].
  - rewrite Hs in *. by apply IH.
  - assert (nextID s < maxInt) as Hlt by lia.
    apply IH.
    + by apply addBookmark_nextID_isInt.
    + rewrite Hn, wrapInt_succ by done. lia.
    + by apply idInvariant_addBookmark.
Qed.

Lemma idInvariant_addBookmarks_witness :
  let s := {| Bookmarks := [{| ID := 1; Name := "A"; URL := "http://a"; Favorite := false |}];
              config := {| DefaultBrowserCmd := "open" |};
              nextID := 2 |} in
  idInvariant (addBookmarks [("Site A", "http://a"); ("Site C", "http://c")] s).
Proof.
  intros s. apply idInvariant_addBookmarks.
  - unfold isInt, minInt, maxInt, intBits. simpl. lia.
  - vm_compute. discriminate.
  - split.
    + apply NoDup_singleton.
    + repeat constructor.
Defined.

(** C4 as stated fails at the end of the [int] range: the collection below
    has unique identifiers, all below its next identifier; the first merge
    assigns [maxInt] and wraps the counter to [minInt], the second one
    assigns [minInt], which is already in use. *)
Lemma idInvariant_broken_by_wraparound :
  let s := {| Bookmarks := [{| ID := minInt; Name := "X"; URL := "http://x"; Favorite := false |}];
              config := {| DefaultBrowserCmd := "open" |};
              nextID := maxInt |} in
  idInvariant s /\
  isInt (nextID s) /\
  ids (Bookmarks (addBookmarks [("A", "http://a"); ("B", "http://b")] s))
    = [minInt; maxInt; minInt] /\
  ~ idInvariant (addBookmarks [("A", "http://a")] s) /\
  ~ NoDup (ids (Bookmarks (addBookmarks [("A", "http://a"); ("B", "http://b")] s))).
Proof.
  intros s. split; [|split; [|split; [|split]]].
  - split; [apply NoDup_singleton|]. repeat constructor.
  - vm_compute. split; discriminate.
  - vm_compute. reflexivity.
  - intros [_ H]. apply Forall_app in H as [_ H]. inversion H as [|? ? Hlt _]; subst.
    vm_compute in Hlt. discriminate.
  - intros H. change (NoDup [minInt; maxInt; minInt]) in H.
    apply NoDup_cons in H as [Hn _]. apply Hn. right. left.
Qed.

(** ** The next identifier after a load *)

Lemma maxIDLoop_spec bs m : maxIDLoop bs m = Z.max m (maxOf m (ids bs)).
Proof.
  revert m. induction bs as [|b bs IH]; intros m; simpl; [lia|].
  rewrite IH. destruct (Z.gtb_spec (ID b) m).
  - assert (forall l a c, a <= c -> Z.max c (maxOf c l) = Z.max c (maxOf a l)) as Hmono.
    { induction l as [|x l IHl]; intros a c Hle; simpl; [lia|].
      specialize (IHl a c Hle). lia. }
    specialize (Hmono (ids bs) m (ID b) ltac:(lia)). lia.
  - assert (forall l a, a <= maxOf a l) as Hge.
    { induction l as [|x l IHl]; intros a; simpl; [lia|]. specialize (IHl a). lia. }
    specialize (Hge (ids bs) m). lia.
Qed.

Lemma maxOf_default l a c :
  (exists x, x ∈ l /\ c <= x) -> a <= c -> maxOf a l = maxOf c l.
Proof.
  induction l as [|y l IH]; intros (x & Hx & Hle) Hac.
  - by apply elem_of_nil in Hx.
  - simpl. apply elem_of_cons in Hx as [->|Hx].
    + assert (forall d, d <= y -> Z.max y (maxOf d l) = Z.max y (maxOf y l)) as Hd.
      { clear. induction l as [|z l IHl]; intros d Hd; simpl; [lia|].
        specialize (IHl d Hd). lia. }
      rewrite (Hd a), (Hd c); lia.
    + rewrite (IH (ex_intro _ x (conj Hx Hle)) Hac). done.
Qed.

Lemma maxOf_ge l d x : x ∈ l -> x <= maxOf d l.
Proof.
  induction l as [|y l IH]; intros Hx; [by apply elem_of_nil in Hx|].
  simpl. apply elem_of_cons in Hx as [->|Hx]; [lia|]. specialize (IH Hx). lia.
Qed.

Lemma maxOf_bound l d m : d <= m -> Forall (fun x => x <= m) l -> maxOf d l <= m.
Proof.
  intros Hd. induction 1 as [|x l Hx _ IH]; simpl; lia.
Qed.

Lemma nextIDBySpec_max bs :
  (exists b : Bookmark, b ∈ bs /\ 0 <= ID b) ->
  nextIDBySpec bs = maxOf 0 (ids bs) + 1.
Proof.
  intros (b & Hb & Hpos). unfold nextIDBySpec.
  assert (ID b ∈ ids bs) as Hin by (by apply list_elem_of_fmap_2).
  destruct (ids bs) as [|i l] eqn:E; [by apply elem_of_nil in Hin|].
  simpl. f_equal. apply elem_of_cons in Hin as [Hi|Hin].
  - subst i.
    assert (forall l d y, d <= y -> Z.max y (maxOf d l) = maxOf y l) as Hd.
    { clear. induction l as [|z l IHl]; intros d y Hd; simpl; [lia|].
      pose proof (IHl d y Hd). pose proof (IHl y y ltac:(lia)). lia. }
    symmetry. apply Hd. done.
  - destruct (Z.le_ge_cases 0 i) as [H0|H0].
    + assert (forall l d y, d <= y -> Z.max y (maxOf d l) = maxOf y l) as Hd.
      { clear. induction l as [|z l IHl]; intros d y Hd; simpl; [lia|].
        pose proof (IHl d y Hd). pose proof (IHl y y ltac:(lia)). lia. }
      symmetry. by apply Hd.
    + rewrite (maxOf_default l i 0); [|by exists (ID b)|done].
      pose proof (maxOf_ge l 0 (ID b) Hin). lia.
Qed.

(** C5, as the code has it.  Loading a persisted collection returns it
    unchanged and sets the next identifier to one more than the largest of
    0 and the loaded identifiers (so to 1 for an empty collection), in
    [int] arithmetic.  This is the largest loaded identifier plus one
    whenever some loaded identifier is not negative and all of them are
    below [maxInt]. *)
Theorem loadState_nextID (goos : string) (bs : list Bookmark) (cfg : Config) :
  exists s,
    loadState goos (FileData (Unmarshaled bs cfg)) = Returned (Some s, None) /\
    Bookmarks s = bs /\ config s = cfg /\
    nextID s = wrapInt (maxOf 0 (ids bs) + 1) /\
    (bs = [] -> nextID s = 1) /\
    ((exists b, b ∈ bs /\ 0 <= ID b) -> Forall (fun b => ID b < maxInt) bs ->
     nextID s = nextIDBySpec bs).
Proof.
  unfold loadState. destruct bs as [|b bs].
  - eexists. split; [reflexivity|]. simpl. repeat split; try done.
    all: intros (b & Hb & _); by apply elem_of_nil in Hb.
  - cbn [Bookmarks length]. 
    replace (0 <? Z.of_nat (S (length bs))) with true by (symmetry; apply Z.ltb_lt; lia).
    eexists. split; [reflexivity|]. cbn [Bookmarks config nextID].
    rewrite maxIDLoop_spec.
    assert (Z.max 0 (maxOf 0 (ids (b :: bs))) = maxOf 0 (ids (b :: bs))) as ->.
    { assert (forall l, 0 <= maxOf 0 l) as H0.
      { induction l as [|x l IHl]; simpl; lia. }
      specialize (H0 (ids (b :: bs))). lia. }
    repeat split; try done.
    intros Hpos Hlt. rewrite nextIDBySpec_max by done.
    apply wrapInt_id. unfold isInt.
    assert (maxOf 0 (ids (b :: bs)) <= maxInt - 1).
    { apply maxOf_bound; [unfold maxInt, intBits; simpl; lia|].
      unfold ids. rewrite Forall_map. eapply Forall_impl; [exact Hlt|]. simpl. intros; lia. }
    assert (0 <= maxOf 0 (ids (b :: bs))).
    { destruct Hpos as (x & Hx & H0). 
      pose proof (maxOf_ge (ids (b :: bs)) 0 (ID x) ltac:(by apply list_elem_of_fmap_2)). lia. }
    unfold minInt, maxInt, intBits in *. simpl in *. lia.
Qed.

Lemma loadState_nextID_witness :
  let bs := [ {| ID := 7; Name := "A"; URL := "http://a"; Favorite := false |};
              {| ID := 3; Name := "B"; URL := "http://b"; Favorite := true |} ] in
  exists s,
    loadState "linux" (FileData (Unmarshaled bs (mkConfig "xdg-open")))
      = Returned (Some s, None) /\
    nextID s = 8.
Proof.
  intros bs.
  destruct (loadState_nextID "linux" bs (mkConfig "xdg-open"))
    as (s & Hload & _ & _ & _ & _ & Hspec).
  exists s. split; [exact Hload|].
  rewrite Hspec; [reflexivity| |].
  - exists {| ID := 7; Name := "A"; URL := "http://a"; Favorite := false |}.
    split; [left | simpl; lia].
  - repeat constructor.
Defined.

(** C5 as stated fails on a collection whose identifiers are all negative
    (a hand-edited [bookmarks.json]): the largest identifier plus one is
    -4, the loop starts its maximum at 0 and the state gets 1. *)
Lemma loadState_negative_ids :
  let bs := [ {| ID := -5; Name := "A"; URL := "http://a"; Favorite := false |} ] in
  nextIDBySpec bs = -4 /\
  loadState "linux" (FileData (Unmarshaled bs (mkConfig "xdg-open")))
    = Returned (Some {| Bookmarks := bs; config := mkConfig "xdg-open"; nextID := 1 |}, None) /\
  1 <> nextIDBySpec bs.
Proof. intros bs. vm_compute. repeat split; discriminate. Qed.

(** ** Flattening of Chromium trees *)

Lemma chromeBookmarkNode_forall_ind (P : chromeBookmarkNode -> Prop) :
  (forall t nm u children, Forall P children -> P (mkNode t nm u children)) ->
  forall node, P node.
Proof.
  intros step. fix IH 1. intros [t nm u children]. apply step.
  induction children as [|c cs IHcs]; constructor; [apply IH | exact IHcs].
Qed.

Lemma parseChromeBookmarks_unfold t nm u children state :
  parseChromeBookmarks (mkNode t nm u children) state =
  fold_left (fun st child => parseChromeBookmarks child st) children
            (if String.eqb t "url" && negb (String.eqb u "")
             then addBookmark state nm u else state).
Proof.
  simpl. generalize (if String.eqb t "url" && negb (String.eqb u "")
                     then addBookmark state nm u else state).
  induction children as [|c cs IH]; intros st; [done|]. simpl. apply IH.
Qed.

Lemma parseChromeBookmarks_merges node state :
  parseChromeBookmarks node state = addBookmarks (merges node) state.
Proof.
  revert state. induction node as [t nm u children IH] using chromeBookmarkNode_forall_ind.
  intros state. rewrite parseChromeBookmarks_unfold. simpl merges.
  rewrite addBookmarks_app.
  assert (addBookmarks (if String.eqb t "url" && negb (String.eqb u "") then [(nm, u)] else [])
                       state
          = if String.eqb t "url" && negb (String.eqb u "")
            then addBookmark state nm u else state) as ->.
  { by destruct (String.eqb t "url" && negb (String.eqb u "")). }
  generalize (if String.eqb t "url" && negb (String.eqb u "")
              then addBookmark state nm u else state).
  induction IH as [|c cs Hc _ IHcs]; intros st; [done|].
  simpl. rewrite addBookmarks_app, <- Hc. apply IHcs.
Qed.

Lemma filter_flat_map {A B} (p : B -> bool) (f : A -> list B) (l : list A) :
  List.filter p (flat_map f l) = flat_map (fun x => List.filter p (f x)) l.
Proof.
  induction l as [|x l IH]; [done|]. simpl. by rewrite List.filter_app, IH.
Qed.

Lemma map_flat_map {A B C} (g : B -> C) (f : A -> list B) (l : list A) :
  map g (flat_map f l) = flat_map (fun x => map g (f x)) l.
Proof.
  induction l as [|x l IH]; [done|]. simpl. by rewrite map_app, IH.
Qed.

Lemma flat_map_ext_Forall {A B} (f g : A -> list B) (l : list A) :
  Forall (fun x => f x = g x) l -> flat_map f l = flat_map g l.
Proof. induction 1 as [|x l Hx _ IH]; [done|]. simpl. by rewrite Hx, IH. Qed.

Lemma length_flat_map {A B} (f : A -> list B) (l : list A) :
  length (flat_map f l) = sum_list (map (fun x => length (f x)) l).
Proof.
  induction l as [|x l IH]; [done|]. simpl. by rewrite length_app, IH.
Qed.

Lemma merges_preorder node :
  merges node = map pairOf (List.filter isURLLeaf (preorder node)).
Proof.
  induction node as [t nm u children IH] using chromeBookmarkNode_forall_ind.
  simpl. unfold isURLLeaf at 1. simpl.
  rewrite filter_flat_map.
  destruct (String.eqb t "url" && negb (String.eqb u "")); simpl;
    rewrite map_flat_map; [f_equal|]; by apply flat_map_ext_Forall.
Qed.

Lemma merges_length node : length (merges node) = countURLLeaves node.
Proof.
  induction node as [t nm u children IH] using chromeBookmarkNode_forall_ind.
  simpl. rewrite length_app, length_flat_map. unfold isURLLeaf. simpl.
  f_equal; [by destruct (String.eqb t "url" && negb (String.eqb u ""))|].
  induction IH as [|c cs Hc _ IHcs]; [done|]. simpl. by rewrite Hc, IHcs.
Qed.

Lemma parseRoots_merges roots state :
  parseRoots roots state = addBookmarks (mergesOfRoots roots) state.
Proof.
  revert state. induction roots as [|[k n] roots IH]; intros state; [done|].
  unfold mergesOfRoots. simpl. rewrite addBookmarks_app, <- parseChromeBookmarks_merges.
  apply IH.
Qed.

(** Flattening of one tree.  The effect of [parseChromeBookmarks] on
    the collection is that of merging, one after the other, the (name, URL)
    pairs of the tree's nodes that are tagged ["url"] and have a non-empty
    URL, taken in pre-order; every other node (folders among them) gives no
    pair, whatever its depth; the number of pairs is the number of such
    nodes. *)
Lemma parseChromeBookmarks_flattens (node : chromeBookmarkNode) (state : AppState) :
  parseChromeBookmarks node state = addBookmarks (merges node) state /\
  merges node = map pairOf (List.filter isURLLeaf (preorder node)) /\
  length (merges node) = countURLLeaves node /\
  (forall p, p ∈ merges node <->
     exists n, n ∈ preorder node /\ pairOf n = p /\
               nodeType n = "url" /\ nodeURL n <> "").
Proof.
  split; [apply parseChromeBookmarks_merges|].
  split; [apply merges_preorder|].
  split; [apply merges_length|].
  intros p. rewrite merges_preorder. split.
  - intros H. apply list_elem_of_fmap in H as (n & Hp & Hin).
    apply list_elem_of_In, List.filter_In in Hin as [Hin Hleaf].
    exists n. split; [by apply list_elem_of_In|]. split; [done|].
    unfold isURLLeaf in Hleaf. apply andb_true_iff in Hleaf as [Ht Hu].
    split; [by apply String.eqb_eq|].
    intros Hu'. rewrite Hu' in Hu. discriminate.
  - intros (n & Hin & Hp & Ht & Hu). rewrite <- Hp.
    apply list_elem_of_fmap_2, list_elem_of_In, List.filter_In.
    split; [by apply list_elem_of_In|].
    unfold isURLLeaf. rewrite Ht. simpl.
    destruct (String.eqb_spec (nodeURL n) ""); done.
Qed.

(** ** Importing a Chromium file *)

Lemma elem_of_mergesOfRoots p roots :
  p ∈ mergesOfRoots roots <-> exists kv, kv ∈ roots /\ p ∈ merges (snd kv).
Proof.
  unfold mergesOfRoots. rewrite list_elem_of_In, in_flat_map.
  split; intros (kv & H1 & H2); exists kv.
  - by rewrite !list_elem_of_In.
  - by rewrite <- !list_elem_of_In.
Qed.

Lemma mergesOfRoots_rangeMap os1 os2 (roots : gmap string chromeBookmarkNode) p :
  rangesMaps os1 -> rangesMaps os2 ->
  p ∈ mergesOfRoots (rangeMap os2 roots) -> p ∈ mergesOfRoots (rangeMap os1 roots).
Proof.
  intros H1 H2. rewrite !elem_of_mergesOfRoots. intros (kv & Hin & Hp).
  exists kv. split; [|done]. unfold rangeMap in *.
  rewrite (H1 _ (map_to_list roots)). by rewrite (H2 _ (map_to_list roots)) in Hin.
Qed.

Lemma importFromChrome_valid os path doc roots state :
  ReadFile os path = Data (Valid doc) ->
  unmarshalRoot doc = Some roots ->
  importFromChrome os path state
  = (addBookmarks (mergesOfRoots (rangeMap os roots)) state, None).
Proof.
  intros Hr Hd. unfold importFromChrome. by rewrite Hr, Hd, parseRoots_merges.
Qed.

Lemma importFromChrome_error os path state err :
  snd (importFromChrome os path state) = Some err ->
  fst (importFromChrome os path state) = state.
Proof.
  unfold importFromChrome. destruct (ReadFile os path) as [e|[e|doc]]; try done.
  by destruct (unmarshalRoot doc).
Qed.

Lemma exampleOS_rangesMaps reversed : rangesMaps (exampleOS reversed).
Proof.
  intros V l. simpl. destruct reversed; [|done]. symmetry. apply Permutation_rev.
Qed.

(** C7. Dedup idempotence.  Importing a Chromium bookmark file a second
    time, right after a first import of the same file, returns the state
    that the first import produced (bookmarks with their identifiers,
    names, URLs and favorite flags, configuration and next identifier) and
    the same error status, whatever order each of the two runs ranges the
    roots in. *)
Theorem importFromChrome_idempotent (os1 os2 : OS) (path : string) (state : AppState) :
  rangesMaps os1 -> rangesMaps os2 ->
  ReadFile os2 path = ReadFile os1 path ->
  importFromChrome os2 path (fst (importFromChrome os1 path state))
  = importFromChrome os1 path state.
Proof.
  intros H1 H2 Hfile. unfold importFromChrome at 1 3. rewrite Hfile.
  destruct (ReadFile os1 path) as [e|[e|doc]] eqn:Hr; simpl.
  - unfold importFromChrome. by rewrite Hr.
  - unfold importFromChrome. by rewrite Hr.
  - destruct (unmarshalRoot doc) as [roots|] eqn:Hd.
    + rewrite (importFromChrome_valid os1 path doc roots) by done.
      simpl. rewrite !parseRoots_merges. f_equal.
      apply addBookmarks_noop. intros p Hp.
      apply addBookmarks_knows. by apply (mergesOfRoots_rangeMap os1 os2).
    + unfold importFromChrome. by rewrite Hr, Hd.
Qed.

Lemma importFromChrome_idempotent_witness :
  let path := "/home/u/.config/google-chrome/Default/Bookmarks" in
  importFromChrome (exampleOS true) path (fst (importFromChrome (exampleOS false) path emptyState))
  = importFromChrome (exampleOS false) path emptyState.
Proof.
  intros path. apply importFromChrome_idempotent.
  - apply exampleOS_rangesMaps.
  - apply exampleOS_rangesMaps.
  - reflexivity.
Defined.

(** The scenario of the specification: the import of the example file
    into the empty collection gives the bookmarks A and B with the
    identifiers 1 and 2. *)
Example importFromChrome_example :
  importFromChrome (exampleOS false) "/home/u/.config/google-chrome/Default/Bookmarks"
                   emptyState
  = ({| Bookmarks := [ {| ID := 1; Name := "A"; URL := "http://a"; Favorite := false |};
                       {| ID := 2; Name := "B"; URL := "http://b"; Favorite := false |} ];
        config := {| DefaultBrowserCmd := "" |};
        nextID := 3 |}, None).
Proof. vm_compute. reflexivity. Qed.

(** ** Flattening of a bookmark file *)

Lemma sum_list_perm (l l' : list nat) : Permutation l l' -> sum_list l = sum_list l'.
Proof. induction 1; simpl; lia. Qed.

Lemma flattenRoots_mergesOfRoots roots : flattenRoots roots = mergesOfRoots roots.
Proof.
  unfold flattenRoots, mergesOfRoots. induction roots as [|kv roots IH]; [done|].
  simpl. by rewrite IH, merges_preorder.
Qed.

Lemma flattenRoots_length roots :
  length (flattenRoots roots) = sum_list (map (fun kv => countURLLeaves (snd kv)) roots).
Proof.
  rewrite flattenRoots_mergesOfRoots. unfold mergesOfRoots. rewrite length_flat_map.
  f_equal. apply map_ext. intros kv. apply merges_length.
Qed.

(** C6, as the code has it.  For every bookmark file that the decoder
    accepts (valid JSON nested at most [maxNestingDepth] deep that decodes
    to a roots mapping) the import merges exactly N (name, URL) pairs, N
    being the number of nodes, at any depth under any root, that are
    tagged ["url"] and have a non-empty URL; a node gives a pair if and
    only if it is such a node, folders give none themselves.  The pairs of
    one root come in the pre-order of that root's tree; the roots follow
    one another in the order in which the range over the roots mapping
    visits them, which is some arrangement of the roots and need not be the
    order of the document.  A file nested deeper than [maxNestingDepth] is
    refused: the import returns an error and merges nothing. *)
Theorem importFromChrome_flattens (os : OS) (path : string) (doc : json) (state : AppState) :
  rangesMaps os ->
  ReadFile os path = Data (scanJSON doc) ->
  (maxNestingDepth < jsonDepth doc ->
   exists err, importFromChrome os path state = (state, Some err)) /\
  (jsonDepth doc <= maxNestingDepth ->
   forall roots,
     unmarshalRoot doc = Some roots ->
     exists visited,
       Permutation visited (map_to_list roots) /\
       importFromChrome os path state = (addBookmarks (flattenRoots visited) state, None) /\
       length (flattenRoots visited)
       = sum_list (map (fun kv => countURLLeaves (snd kv)) (map_to_list roots)) /\
       (forall p, p ∈ flattenRoots visited <->
          exists label root n,
            roots !! label = Some root /\ n ∈ preorder root /\ pairOf n = p /\
            nodeType n = "url" /\ nodeURL n <> "")) /\
  (forall node st,
     parseChromeBookmarks node st
     = addBookmarks (map pairOf (List.filter isURLLeaf (preorder node))) st).
Proof.
  intros Hrange Hread. unfold scanJSON in Hread. split; [|split].
  - intros Hdeep. apply Z.leb_gt in Hdeep. rewrite Hdeep in Hread.
    unfold importFromChrome. rewrite Hread. by eexists.
  - intros Hok roots Hroots. apply Z.leb_le in Hok. rewrite Hok in Hread.
    exists (rangeMap os roots).
    assert (Permutation (rangeMap os roots) (map_to_list roots)) as Hperm by apply Hrange.
    split; [done|]. split; [|split].
    + rewrite (importFromChrome_valid os path doc roots) by done.
      by rewrite flattenRoots_mergesOfRoots.
    + rewrite flattenRoots_length. apply sum_list_perm. by apply Permutation_map.
    + intros p. rewrite flattenRoots_mergesOfRoots, elem_of_mergesOfRoots. split.
      * intros ([label root] & Hin & Hp). rewrite Hperm in Hin.
        apply elem_of_map_to_list in Hin.
        destruct (parseChromeBookmarks_flattens root state) as (_ & _ & _ & Hiff).
        apply Hiff in Hp as (n & Hn & Hpair & Ht & Hu). by exists label, root, n.
      * intros (label & root & n & Hl & Hn & Hpair & Ht & Hu).
        exists (label, root). split; [rewrite Hperm; by apply elem_of_map_to_list|].
        destruct (parseChromeBookmarks_flattens root state) as (_ & _ & _ & Hiff).
        apply Hiff. by exists n.
  - intros node st. by rewrite parseChromeBookmarks_merges, merges_preorder.
Qed.

Lemma withDocument_rangesMaps os doc : rangesMaps os -> rangesMaps (withDocument os doc).
Proof. intros H V l. apply H. Qed.

Lemma importFromChrome_flattens_witness :
  let os := withDocument (exampleOS true) twoRootsDoc in
  exists visited,
    Permutation visited (map_to_list twoRoots) /\
    importFromChrome os "Bookmarks" emptyState
    = (addBookmarks (flattenRoots visited) emptyState, None).
Proof.
  intros os.
  destruct (proj1 (proj2 (importFromChrome_flattens os "Bookmarks" twoRootsDoc emptyState
                            (withDocument_rangesMaps _ _ (exampleOS_rangesMaps true))
                            eq_refl))
              ltac:(vm_compute; discriminate) twoRoots ltac:(vm_compute; reflexivity))
    as (visited & Hperm & Hrun & _).
  exists visited. split; [exact Hperm | exact Hrun].
Defined.

(** C6 as stated fails on a file with two roots: the document lists the
    bar (bookmark A) before the other bookmarks (bookmark B), so the
    pre-order of the document gives A then B; in the environment below the
    range over the roots visits the other bookmarks first and the import
    merges B (identifier 1) before A (identifier 2). *)
Lemma importFromChrome_root_order :
  let os := withDocument (exampleOS false) twoRootsDoc in
  rangesMaps os /\
  ReadFile os "Bookmarks" = Data (scanJSON twoRootsDoc) /\
  flattenRoots (documentRoots twoRootsDoc) = [("A", "http://a"); ("B", "http://b")] /\
  importFromChrome os "Bookmarks" emptyState
  = ({| Bookmarks := [ {| ID := 1; Name := "B"; URL := "http://b"; Favorite := false |};
                       {| ID := 2; Name := "A"; URL := "http://a"; Favorite := false |} ];
        config := {| DefaultBrowserCmd := "" |};
        nextID := 3 |}, None) /\
  fst (importFromChrome os "Bookmarks" emptyState)
  <> addBookmarks (flattenRoots (documentRoots twoRootsDoc)) emptyState.
Proof.
  intros os. split; [apply withDocument_rangesMaps, exampleOS_rangesMaps|].
  split; [reflexivity|]. split; [reflexivity|].
  split; [vm_compute; reflexivity|]. vm_compute. discriminate.
Qed.

(** A tree of 5000 nested folders makes a file nested 10003 deep, which
    the decoder refuses: nothing is merged. *)
Example importFromChrome_refuses_deep_tree :
  jsonDepth deepFoldersDoc = 10003 /\
  exists err,
    importFromChrome (withFileText (exampleOS false) deepFoldersDoc) "Bookmarks" emptyState
    = (emptyState, Some err).
Proof.
  split; [vm_compute; reflexivity|]. eexists. vm_compute. reflexivity.
Qed.

(** ** The directory walk *)

Lemma fsEntry_forall_ind (P : fsEntry -> Prop) :
  (forall name, P (File name)) ->
  (forall name readErr entries, Forall P entries -> P (Dir name readErr entries)) ->
  forall d, P d.
Proof.
  intros Hfile Hdir. fix IH 1. intros [name|name readErr entries]; [apply Hfile|].
  apply Hdir. induction entries as [|e es IHes]; constructor; [apply IH | exact IHes].
Qed.

Section WalkDirInvariant.
Context {St : Type} (join : string -> string -> string).
Context (fn : string -> option fsEntry -> option string -> St -> St * option walkErr).
Context (R : St -> St -> Prop) `{!PreOrder R}.
Hypothesis fn_R : forall path d err st, R st (fst (fn path d err st)).

Lemma walkDir_invariant d : forall path st, R st (fst (walkDir join fn path d st)).
Proof.
  induction d as [name|name readErr entries IH] using fsEntry_forall_ind;
    intros path st; simpl.
  - apply fn_R.
  - pose proof (fn_R path (Some (Dir name readErr entries)) None st) as H1.
    destruct (fn path (Some (Dir name readErr entries)) None st) as [st1 [err|]].
    + by destruct err.
    + simpl in H1.
      assert (exists st2 r2,
                match readErr with
                | Some e => fn path (Some (Dir name readErr entries)) (Some e) st1
                | None => (st1, None)
                end = (st2, r2) /\ R st1 st2) as (st2 & r2 & -> & H2).
      { destruct readErr as [e|].
        - pose proof (fn_R path (Some (Dir name (Some e) entries)) (Some e) st1) as H2.
          destruct (fn path (Some (Dir name (Some e) entries)) (Some e) st1) as [st2 r2].
          by exists st2, r2.
        - by exists st1, None. }
      destruct r2 as [err|].
      * assert (R st st2) by (by etrans). by destruct err.
      * assert (R st st2) as H3 by (by etrans). clear H1 H2. revert st2 H3.
        induction IH as [|e es He _ IHes]; intros st2 H3; [done|].
        specialize (He (join path (entryName e)) st2).
        destruct (walkDir join fn (join path (entryName e)) e st2) as [st3 [[| |err]|]];
          simpl in He; try (by etrans).
        apply IHes. by etrans.
Qed.

Lemma WalkDir_invariant lstat root st : R st (fst (WalkDir join fn lstat root st)).
Proof.
  unfold WalkDir. destruct (lstat root) as [d|].
  - pose proof (walkDir_invariant d root st) as H.
    by destruct (walkDir join fn root d st) as [st1 [[| |err]|]].
  - pose proof (fn_R root None (Some "lstat") st) as H.
    by destruct (fn root None (Some "lstat") st) as [st1 [[| |err]|]].
Qed.
End WalkDirInvariant.

(** ** An import run only appends *)

#[local] Instance extends_preorder : PreOrder extends.
Proof.
  split.
  - intros s. by split.
  - intros s1 s2 s3 [H1 C1] [H2 C2]. split; [by etrans | congruence].
Qed.

#[local] Instance extendsVars_preorder : PreOrder extendsVars.
Proof.
  split.
  - intros v. unfold extendsVars. reflexivity.
  - intros v1 v2 v3. unfold extendsVars. apply transitivity.
Qed.

Lemma addBookmark_extends s name url : extends s (addBookmark s name url).
Proof. split; [apply addBookmark_prefix | apply addBookmark_config]. Qed.

Lemma addBookmarks_extends l s : extends s (addBookmarks l s).
Proof. split; [apply addBookmarks_prefix | apply addBookmarks_config]. Qed.

Lemma fold_left_invariant {A B} (R : A -> A -> Prop) `{!PreOrder R}
  (f : A -> B -> A) (l : list B) (a : A) :
  (forall a b, R a (f a b)) -> R a (fold_left f l a).
Proof.
  intros Hf. revert a. induction l as [|b l IH]; intros a; simpl; [done|].
  etrans; [apply Hf | apply IH].
Qed.

Lemma importFromChrome_extends os path s : extends s (fst (importFromChrome os path s)).
Proof.
  unfold importFromChrome. destruct (ReadFile os path) as [e|[e|doc]]; try done.
  destruct (unmarshalRoot doc) as [roots|]; [|done].
  simpl. rewrite parseRoots_merges. apply addBookmarks_extends.
Qed.

Lemma scanRows_extends rows s : extends s (scanRows rows s).
Proof.
  unfold scanRows. apply fold_left_invariant; [apply _|].
  intros a [[title url]|]; [apply addBookmark_extends | done].
Qed.

(** The second scenario of the specification: the collection holds
    [http://a] under the identifier 1 and the Firefox rows are Site A
    ([http://a]) and Site C ([http://c]). *)
Example scanRows_example :
  scanRows [Some ("Site A", "http://a"); Some ("Site C", "http://c")]
           {| Bookmarks := [ {| ID := 1; Name := "A"; URL := "http://a"; Favorite := true |} ];
              config := {| DefaultBrowserCmd := "open" |};
              nextID := 2 |}
  = {| Bookmarks := [ {| ID := 1; Name := "A"; URL := "http://a"; Favorite := true |};
                      {| ID := 2; Name := "Site C"; URL := "http://c"; Favorite := false |} ];
       config := {| DefaultBrowserCmd := "open" |};
       nextID := 3 |}.
Proof. vm_compute. reflexivity. Qed.

Lemma importFromFirefox_extends os path s : extends s (fst (importFromFirefox os path s)).
Proof.
  unfold importFromFirefox. destruct (Query os _); try done. apply scanRows_extends.
Qed.

Lemma importFromFirefox_error os path s err :
  snd (importFromFirefox os path s) = Some err ->
  fst (importFromFirefox os path s) = s.
Proof. unfold importFromFirefox. by destruct (Query os _). Qed.

Lemma importChromePath_extends os browser v path :
  extendsVars v (importChromePath os browser v path).
Proof.
  unfold importChromePath, extendsVars. destruct (Stat os path); [|done].
  pose proof (importFromChrome_extends os path (ivState v)) as H.
  by destruct (importFromChrome os path (ivState v)) as [st [e|]].
Qed.

Lemma importChromeLike_extends os paths v : extendsVars v (importChromeLike os paths v).
Proof.
  unfold importChromeLike. apply fold_left_invariant; [apply _|].
  intros a [browser ps]. apply fold_left_invariant; [apply _|].
  intros. apply importChromePath_extends.
Qed.

Lemma firefoxWalkFn_extends os path d err v :
  extendsVars v (fst (firefoxWalkFn os path d err v)).
Proof.
  unfold firefoxWalkFn, extendsVars. destruct err as [e|]; [done|].
  destruct d as [d|]; [|done].
  destruct (negb (entryIsDir d) && String.eqb (entryName d) "places.sqlite"); [|done].
  pose proof (importFromFirefox_extends os path (ivState v)) as H.
  by destruct (importFromFirefox os path (ivState v)) as [st [e|]].
Qed.

Lemma importFirefox_extends os dirs v : extendsVars v (importFirefox os dirs v).
Proof.
  unfold importFirefox. destruct (dirs !! "firefox_dir") as [dir|]; [|done].
  set (v0 := mkVars (ivState v) (foundAnyBrowser v) false (stdout v)).
  assert (extendsVars v0 (fst (WalkDir (Join os) (firefoxWalkFn os) (Lstat os) dir v0))) as H.
  { apply WalkDir_invariant; [apply _|]. apply firefoxWalkFn_extends. }
  by destruct (negb (foundFirefoxDB _)).
Qed.

#[local] Instance sameState_preorder : PreOrder sameState.
Proof.
  split.
  - by intros v.
  - intros v1 v2 v3. unfold sameState. congruence.
Qed.

Lemma importFirefox_all_fail os dirs v :
  (forall uri, exists err, Query os uri = OpenFailed err \/ Query os uri = QueryFailed err) ->
  ivState (importFirefox os dirs v) = ivState v.
Proof.
  intros Hfail. unfold importFirefox. destruct (dirs !! "firefox_dir") as [dir|]; [|done].
  set (v0 := mkVars (ivState v) (foundAnyBrowser v) false (stdout v)).
  assert (sameState v0 (fst (WalkDir (Join os) (firefoxWalkFn os) (Lstat os) dir v0))) as H.
  { apply WalkDir_invariant; [apply _|]. intros path d err w.
    unfold firefoxWalkFn, sameState. destruct err as [e|]; [done|].
    destruct d as [d|]; [|done].
    destruct (negb (entryIsDir d) && String.eqb (entryName d) "places.sqlite"); [|done].
    unfold importFromFirefox.
    by destruct (Hfail ("file:" +:+ path +:+ "?_immutable=1")) as (e & [-> | ->]). }
  by destruct (negb (foundFirefoxDB _)).
Qed.

Lemma importBookmarks_panics os s :
  HomeDir os = None ->
  importBookmarks os s = Panicked "invalid memory address or nil pointer dereference".
Proof. intros H. unfold importBookmarks, getBrowserPaths. by rewrite H. Qed.

Lemma importBookmarks_returns os s homeDir :
  HomeDir os = Some homeDir ->
  exists out,
    importBookmarks os s
    = Returned (ivState (importFirefox os (snd (browserPathTables os homeDir))
                           (importChromeLike os (fst (browserPathTables os homeDir))
                              (mkVars s false false []))), out).
Proof.
  intros H. unfold importBookmarks, getBrowserPaths. rewrite H.
  destruct (browserPathTables os homeDir) as [chromeLikePaths firefoxDirs]. by eexists.
Qed.

Lemma importBookmarks_Returned os s s' out :
  importBookmarks os s = Returned (s', out) ->
  exists homeDir,
    HomeDir os = Some homeDir /\
    s' = ivState (importFirefox os (snd (browserPathTables os homeDir))
                    (importChromeLike os (fst (browserPathTables os homeDir))
                       (mkVars s false false []))).
Proof.
  intros Hrun. destruct (HomeDir os) as [homeDir|] eqn:Hhome.
  - destruct (importBookmarks_returns os s homeDir Hhome) as [out' Hret].
    rewrite Hret in Hrun. injection Hrun as <- _. by exists homeDir.
  - by rewrite importBookmarks_panics in Hrun.
Qed.

(** C8. An import run only appends.  The bookmarks present when the run
    begins are, after the run, the first bookmarks of the collection, each
    with the same identifier, name, URL and favorite flag; so are the
    bookmarks present after the Chromium sources were merged, whatever the
    Firefox reader does afterwards.  A call of the Firefox reader that
    returns an error leaves the state as it was, and when every database
    fails to open or to answer the query the run ends in the state reached
    after the Chromium sources.  The run returns whenever the lookup of
    the current user succeeded; when it failed the run panics in
    [getBrowserPaths], before anything is merged. *)
Theorem importBookmarks_only_appends (os : OS) (s : AppState) :
  (HomeDir os = None -> exists msg, importBookmarks os s = Panicked msg) /\
  (forall homeDir,
     HomeDir os = Some homeDir ->
     exists s' out,
       importBookmarks os s = Returned (s', out) /\
       let afterChrome :=
         ivState (importChromeLike os (fst (browserPathTables os homeDir))
                                   (mkVars s false false [])) in
       Bookmarks s `prefix_of` Bookmarks s' /\
       Bookmarks s `prefix_of` Bookmarks afterChrome /\
       Bookmarks afterChrome `prefix_of` Bookmarks s' /\
       (forall path st err,
          snd (importFromFirefox os path st) = Some err ->
          fst (importFromFirefox os path st) = st) /\
       ((forall uri, exists err,
            Query os uri = OpenFailed err \/ Query os uri = QueryFailed err) ->
        s' = afterChrome)).
Proof.
  split.
  - intros Hnone. eexists. by apply importBookmarks_panics.
  - intros homeDir Hhome. destruct (importBookmarks_returns os s homeDir Hhome) as [out Hret].
    eexists _, out. split; [exact Hret|].
    destruct (browserPathTables os homeDir) as [chromeLikePaths firefoxDirs]. cbn [fst snd].
    pose proof (importChromeLike_extends os chromeLikePaths (mkVars s false false []))
      as [H1 _].
    pose proof (importFirefox_extends os firefoxDirs
                  (importChromeLike os chromeLikePaths (mkVars s false false []))) as [H2 _].
    simpl in H1. split; [by etrans|]. split; [done|]. split; [done|]. split.
    + intros path st err. apply importFromFirefox_error.
    + intros Hfail. by apply importFirefox_all_fail.
Qed.

(** ** Commands: tokens and numbers *)

Lemma parseDigits_step c rest acc :
  byteIn 48 57 c = true ->
  parseDigits (String c rest) acc
  = parseDigits rest (10 * acc + (Z.of_nat (nat_of_ascii c) - 48)).
Proof. simpl. by intros ->. Qed.

Ltac digit_value :=
  match goal with
  | |- context [Z.of_nat (nat_of_ascii ?c)] =>
      let v := eval vm_compute in (Z.of_nat (nat_of_ascii c)) in
      change (Z.of_nat (nat_of_ascii c)) with v
  end.

Lemma parseDigits_uint_acc d acc :
  parseDigits (NilEmpty.string_of_uint d) (Z.pos acc)
  = Some (Z.pos (Pos.of_uint_acc d acc)).
Proof.
  revert acc. induction d as [|d IH|d IH|d IH|d IH|d IH|d IH|d IH|d IH|d IH|d IH];
    intros acc; [done|..];
    cbn [NilEmpty.string_of_uint Pos.of_uint_acc];
    rewrite parseDigits_step by done; rewrite <- IH; f_equal; digit_value; lia.
Qed.

Lemma parseDigits_uint d :
  parseDigits (NilEmpty.string_of_uint d) 0 = Some (Z.of_N (Pos.of_uint d)).
Proof.
  induction d as [|d IH|d IH|d IH|d IH|d IH|d IH|d IH|d IH|d IH|d IH];
    [done| |
     cbn [NilEmpty.string_of_uint Pos.of_uint];
     rewrite parseDigits_step by done; apply parseDigits_uint_acc ..].
  cbn [NilEmpty.string_of_uint Pos.of_uint]. by rewrite parseDigits_step.
Qed.

Lemma Atoi_digits d :
  d <> Decimal.Nil ->
  isInt (Z.of_N (Pos.of_uint d)) ->
  Atoi (NilEmpty.string_of_uint d) = Some (Z.of_N (Pos.of_uint d)).
Proof.
  intros Hd [Hlo Hhi]. unfold Atoi.
  assert (Hrange : (minInt <=? Z.of_N (Pos.of_uint d)) && (Z.of_N (Pos.of_uint d) <=? maxInt)
                   = true).
  { apply andb_true_iff. split; by apply Z.leb_le. }
  pose proof (parseDigits_uint d) as Hp.
  destruct d; [done|..]; cbn [NilEmpty.string_of_uint] in *; cbv iota beta;
    rewrite Hp; cbv iota beta; by rewrite Hrange.
Qed.

Lemma Atoi_neg_digits d :
  d <> Decimal.Nil ->
  isInt (- Z.of_N (Pos.of_uint d)) ->
  Atoi (String "-" (NilEmpty.string_of_uint d)) = Some (- Z.of_N (Pos.of_uint d)).
Proof.
  intros Hd [Hlo Hhi]. unfold Atoi. cbv iota beta.
  assert (Hrange : (minInt <=? - Z.of_N (Pos.of_uint d)) && (- Z.of_N (Pos.of_uint d) <=? maxInt)
                   = true).
  { apply andb_true_iff. split; by apply Z.leb_le. }
  pose proof (parseDigits_uint d) as Hp.
  destruct d; [done|..]; cbn [NilEmpty.string_of_uint] in *;
    rewrite Hp; cbv iota beta; by rewrite Hrange.
Qed.

(** [strconv.Atoi] reads back what [%d] prints. *)
Lemma Atoi_Itoa z : isInt z -> Atoi (Itoa z) = Some z.
Proof.
  intros Hz. unfold Itoa. destruct z as [|p|p].
  - done.
  - cbn [Z.to_int NilZero.string_of_int]. unfold NilZero.string_of_uint.
    pose proof (Unsigned.to_uint_nonnil p) as Hnn.
    pose proof (DecimalPos.Unsigned.of_to p) as Hof.
    assert (Atoi (NilEmpty.string_of_uint (Pos.to_uint p)) = Some (Z.pos p)) as H.
    { rewrite Atoi_digits; rewrite ?Hof; done. }
    by destruct (Pos.to_uint p).
  - cbn [Z.to_int NilZero.string_of_int]. unfold NilZero.string_of_uint.
    pose proof (Unsigned.to_uint_nonnil p) as Hnn.
    pose proof (DecimalPos.Unsigned.of_to p) as Hof.
    assert (Atoi (String "-" (NilEmpty.string_of_uint (Pos.to_uint p))) = Some (Z.neg p)) as H.
    { rewrite Atoi_neg_digits; rewrite ?Hof; done. }
    by destruct (Pos.to_uint p).
Qed.

Lemma spaceWidth_plain c rest : byteIn 33 126 c = true -> spaceWidth (String c rest) = 0%nat.
Proof.
  intros H. destruct c as [[] [] [] [] [] [] [] []]; try discriminate H;
    destruct rest as [|c2 [|c3 r]]; reflexivity.
Qed.

Lemma append_String c s t : String c s +:+ t = String c (s +:+ t).
Proof. reflexivity. Qed.

Lemma append_empty_r s : s +:+ "" = s.
Proof. induction s as [|x s IH]; [done|]. rewrite append_String. by f_equal. Qed.

Lemma append_assoc_byte cur c rest :
  (cur +:+ String c EmptyString) +:+ rest = cur +:+ String c rest.
Proof.
  induction cur as [|x cur IH]; [done|]. rewrite !append_String. by f_equal.
Qed.

Lemma fieldsFrom_plain w cur :
  plainBytes w = true -> fieldsFrom w 0%nat cur = flushField (cur +:+ w).
Proof.
  revert cur. induction w as [|c w IH]; intros cur Hw.
  - simpl. by rewrite append_empty_r.
  - simpl in Hw. apply andb_true_iff in Hw as [Hc Hw].
    cbn [fieldsFrom]. rewrite spaceWidth_plain by done.
    rewrite IH by done. by rewrite append_assoc_byte.
Qed.

Lemma Fields_open w :
  plainBytes w = true -> w <> "" -> Fields ("open " +:+ w) = ["open"; w].
Proof.
  intros Hw Hne. unfold Fields.
  change ("open " +:+ w) with (String "o" (String "p" (String "e" (String "n" (String " " w))))).
  do 4 (cbn [fieldsFrom]; rewrite spaceWidth_plain by done). 
  cbn [fieldsFrom]. change (spaceWidth (String " " w)) with 1%nat. cbv iota.
  rewrite fieldsFrom_plain by done. simpl. by destruct w.
Qed.

Lemma plainBytes_uint d : plainBytes (NilEmpty.string_of_uint d) = true.
Proof. induction d; simpl; done. Qed.

Lemma Itoa_plain z : plainBytes (Itoa z) = true /\ Itoa z <> "".
Proof.
  unfold Itoa. destruct z as [|p|p]; [done|..];
    cbn [Z.to_int NilZero.string_of_int]; unfold NilZero.string_of_uint;
    pose proof (Unsigned.to_uint_nonnil p) as Hnn;
    pose proof (plainBytes_uint (Pos.to_uint p)) as Hp;
    destruct (Pos.to_uint p); done.
Qed.

(** ** The [open] command *)

Lemma findByID_elem_of bs b : b ∈ bs -> exists b', findByID bs (ID b) = Some b'.
Proof.
  induction bs as [|x bs IH]; intros Hin; [by apply elem_of_nil in Hin|].
  simpl. destruct (Z.eqb_spec (ID x) (ID b)); [by exists x|].
  apply elem_of_cons in Hin as [->|Hin]; [done|]. by apply IH.
Qed.

Lemma handleCommand_open_panics os s input a rest b :
  Fields (DefaultBrowserCmd (config s)) = [] ->
  Fields input = "open" :: a :: rest ->
  Atoi a = Some (ID b) ->
  b ∈ Bookmarks s ->
  handleCommand os s input = Panicked "index out of range [0] with length 0".
Proof.
  intros Hcmd Hin Ha Hb. unfold handleCommand. rewrite Hin.
  change (String.eqb "open" "list" || String.eqb "open" "ls") with false.
  change (String.eqb "open" "open") with true. cbv iota.
  unfold cmdOpen. rewrite Ha. destruct (findByID_elem_of _ _ Hb) as [b' ->].
  by rewrite Hcmd.
Qed.

Lemma loadState_first_run goos saveErr :
  goos <> "darwin" -> goos <> "linux" -> goos <> "windows" ->
  loadState goos (NotExist saveErr)
  = Returned (Some {| Bookmarks := []; config := {| DefaultBrowserCmd := "" |}; nextID := 1 |},
              saveErr).
Proof.
  intros H1 H2 H3. unfold loadState, defaultBrowserCmd.
  apply String.eqb_neq in H1, H2, H3. by rewrite H1, H2, H3.
Qed.

(** C9. With an empty default browser command, [open <id>] for the
    identifier of any bookmark of the collection reads element 0 of the
    empty list of tokens of the command and panics (index out of range): it
    neither returns nor prints an error line. *)
Theorem open_panics_on_empty_browser_cmd (os : OS) (s : AppState) (b : Bookmark) :
  DefaultBrowserCmd (config s) = "" ->
  b ∈ Bookmarks s ->
  isInt (ID b) ->
  handleCommand os s ("open " +:+ Itoa (ID b))
  = Panicked "index out of range [0] with length 0".
Proof.
  intros Hcmd Hb Hint. destruct (Itoa_plain (ID b)) as [Hp Hne].
  apply (handleCommand_open_panics os s _ (Itoa (ID b)) [] b).
  - by rewrite Hcmd.
  - by apply Fields_open.
  - by apply Atoi_Itoa.
  - done.
Qed.

Lemma open_panics_on_empty_browser_cmd_witness :
  let s := {| Bookmarks := [ {| ID := 1; Name := "A"; URL := "http://a"; Favorite := false |};
                             {| ID := 2; Name := "B"; URL := "http://b"; Favorite := false |} ];
              config := {| DefaultBrowserCmd := "" |};
              nextID := 3 |} in
  handleCommand (exampleOS false) s "open 2" = Panicked "index out of range [0] with length 0".
Proof.
  intros s.
  apply (open_panics_on_empty_browser_cmd (exampleOS false) s
           {| ID := 2; Name := "B"; URL := "http://b"; Favorite := false |}).
  - reflexivity.
  - right. left.
  - vm_compute. split; discriminate.
Defined.

(** ** The [list] command *)

Lemma ltb_irrefl s : String.ltb s s = false.
Proof.
  unfold String.ltb.
  assert (String.compare s s = Eq) as -> by (by apply String_as_OT.cmp_eq). done.
Qed.

Lemma ltb_trans a b c :
  String.ltb a b = true -> String.ltb b c = true -> String.ltb a c = true.
Proof.
  unfold String.ltb. intros Hab Hbc.
  destruct (String.compare a b) eqn:Eab; try discriminate.
  destruct (String.compare b c) eqn:Ebc; try discriminate.
  apply String_as_OT.cmp_lt in Eab, Ebc.
  pose proof (String_as_OT.lt_trans _ _ _ Eab Ebc) as Hac.
  apply String_as_OT.cmp_lt in Hac. unfold String_as_OT.cmp in Hac. by rewrite Hac.
Qed.

Lemma ltb_false a b : String.ltb a b = false <-> a = b \/ String.ltb b a = true.
Proof.
  unfold String.ltb. rewrite (String.compare_antisym b a).
  destruct (String.compare a b) eqn:E; simpl.
  - apply String.compare_eq_iff in E. naive_solver.
  - split; [done|]. intros [->|?]; [|done].
    assert (String.compare b b = Eq) as Hbb by (by apply String_as_OT.cmp_eq). congruence.
  - naive_solver.
Qed.

Lemma ltb_negative_trans a b c :
  String.ltb a b = false -> String.ltb b c = false -> String.ltb a c = false.
Proof.
  rewrite !ltb_false. intros [->|Hba] [->|Hcb]; eauto.
  right. by apply (ltb_trans c b a).
Qed.

Lemma lessByName_strictWeakOrder os : strictWeakOrder (lessByName os).
Proof.
  unfold lessByName. split; [|split].
  - intros a. apply ltb_irrefl.
  - intros a b c. apply ltb_trans.
  - intros a b c. apply ltb_negative_trans.
Qed.

Section InsertionSort.
Context {A : Type} (less : A -> A -> bool).
Hypothesis less_swo : strictWeakOrder less.

Lemma insertSorted_perm x l : Permutation (insertSorted less x l) (x :: l).
Proof.
  induction l as [|y l IH]; simpl; [done|].
  destruct (less x y); [done|]. rewrite IH. apply perm_swap.
Qed.

Lemma insertionSort_perm l : Permutation (insertionSort less l) l.
Proof.
  induction l as [|x l IH]; simpl; [done|].
  change (fold_right (insertSorted less) [] l) with (insertionSort less l).
  by rewrite insertSorted_perm, IH.
Qed.

Lemma insertSorted_sorted x l : sortedBy less l -> sortedBy less (insertSorted less x l).
Proof.
  destruct less_swo as (Hirr & Htr & Hneg). unfold sortedBy.
  induction 1 as [|y l Hs IH Hy]; simpl.
  - repeat constructor.
  - destruct (less x y) eqn:E.
    + constructor; [by constructor|].
      assert (less y x = false) as Hyx.
      { destruct (less y x) eqn:E'; [|done].
        pose proof (Htr x y x E E') as Hxx. by rewrite Hirr in Hxx. }
      constructor; [done|].
      eapply Forall_impl; [exact Hy|]. simpl. intros z Hz. by apply (Hneg z y x).
    + constructor; [done|].
      eapply Forall_forall. intros z Hz.
      rewrite insertSorted_perm in Hz.
      apply elem_of_cons in Hz as [->|Hz]; [done|].
      rewrite Forall_forall in Hy. by apply Hy.
Qed.

Lemma insertionSort_sorted l : sortedBy less (insertionSort less l).
Proof.
  induction l as [|x l IH]; simpl; [constructor|]. by apply insertSorted_sorted.
Qed.
End InsertionSort.

Lemma exampleOS_sortsSlices reversed : sortsSlices (exampleOS reversed).
Proof.
  intros less Hless l. split.
  - apply insertionSort_perm.
  - by apply insertionSort_sorted.
Qed.

Lemma handleCommand_list os s input command args :
  Fields input = command :: args ->
  command = "list" \/ command = "ls" ->
  handleCommand os s input
  = Returned (false, fst (cmdList os s args), snd (cmdList os s args)).
Proof.
  intros Hin Hc. unfold handleCommand. rewrite Hin.
  assert (String.eqb command "list" || String.eqb command "ls" = true) as ->.
  { by destruct Hc as [-> | ->]. }
  by destruct (cmdList os s args).
Qed.

(** C10. Every variant of [list] (or [ls]) stores the sorted collection.
    After the command the state holds the bookmarks it held before,
    rearranged by [sort.Slice] so that no bookmark's lower-cased name is
    smaller than that of a bookmark placed before it; configuration and
    next identifier are unchanged; a [save] that follows writes the
    bookmarks in this order; and when the collection was not in this order
    before, the stored sequence has changed. *)
Theorem list_sorts_stored_collection (os : OS) (s : AppState) (input command : string)
  (args : list string) :
  sortsSlices os ->
  Fields input = command :: args ->
  command = "list" \/ command = "ls" ->
  exists s' out,
    handleCommand os s input = Returned (false, s', out) /\
    Bookmarks s' = sortSlice os (lessByName os) (Bookmarks s) /\
    Permutation (Bookmarks s') (Bookmarks s) /\
    StronglySorted
      (fun a b => String.ltb (ToLower os (Name b)) (ToLower os (Name a)) = false)
      (Bookmarks s') /\
    config s' = config s /\ nextID s' = nextID s /\
    saveState os s' = WriteFile os bookmarksFile (Bookmarks s', config s) /\
    (~ sortedBy (lessByName os) (Bookmarks s) -> Bookmarks s' <> Bookmarks s).
Proof.
  intros Hsort Hin Hc.
  destruct (Hsort (lessByName os) (lessByName_strictWeakOrder os) (Bookmarks s))
    as [Hperm Hsorted].
  exists (fst (cmdList os s args)), (snd (cmdList os s args)).
  split; [by apply (handleCommand_list os s input command args)|].
  unfold cmdList. simpl. repeat split; try done.
  intros Hns Heq. apply Hns. by rewrite <- Heq.
Qed.

Lemma list_sorts_stored_collection_witness :
  let s := {| Bookmarks := [ {| ID := 1; Name := "zeta"; URL := "http://z"; Favorite := false |};
                             {| ID := 2; Name := "Alpha"; URL := "http://a"; Favorite := true |};
                             {| ID := 3; Name := "beta"; URL := "http://b"; Favorite := false |} ];
              config := {| DefaultBrowserCmd := "xdg-open" |};
              nextID := 4 |} in
  exists s' out,
    handleCommand (exampleOS false) s "list fav" = Returned (false, s', out) /\
    ids (Bookmarks s') = [2; 3; 1].
Proof.
  intros s.
  destruct (list_sorts_stored_collection (exampleOS false) s "list fav" "list" ["fav"])
    as (s' & out & Hrun & Hbs & _).
  - apply exampleOS_sortsSlices.
  - reflexivity.
  - by left.
  - exists s', out. split; [exact Hrun|]. rewrite Hbs. reflexivity.
Defined.

(** ** Documents that [importFromChrome] accepts *)

Lemma rangeMap_empty os (V : Type) : rangesMaps os -> rangeMap os (∅ : gmap string V) = [].
Proof.
  intros H. unfold rangeMap. rewrite map_to_list_empty.
  pose proof (H V []) as Hp. by apply Permutation_nil_r in Hp.
Qed.

Lemma decodeRootFields_type_error members roots :
  (exists key val, (key, val) ∈ members /\ isRootsKey key = true
                   /\ notObjectOrNull val = true) ->
  decodeRootFields members roots = None.
Proof.
  revert roots. induction members as [|[k v] ms IH]; intros roots (key & val & Hin & Hk & Hv).
  - by apply elem_of_nil in Hin.
  - simpl. apply elem_of_cons in Hin as [Heq|Hin].
    + injection Heq as <- <-. rewrite Hk. by destruct val.
    + assert (forall r, decodeRootFields ms r = None) as Hrest.
      { intros r. apply IH. by exists key, val. }
      destruct (isRootsKey k); [|done].
      destruct v as [| | | | |nodes]; try done.
      by destruct (decodeRootsMap nodes roots).
Qed.

Lemma decodeRootFields_no_roots members :
  (forall key val, (key, val) ∈ members -> isRootsKey key = false \/ val = JNull) ->
  decodeRootFields members ∅ = Some ∅.
Proof.
  induction members as [|[k v] ms IH]; intros H; [done|].
  simpl. destruct (H k v ltac:(left)) as [-> | ->].
  - apply IH. intros key val Hin. apply H. by right.
  - assert (decodeRootFields ms ∅ = Some ∅) as ->; [|by destruct (isRootsKey k)].
    apply IH. intros key val Hin. apply H. by right.
Qed.

(** C2, as the code has it.  On a readable file holding valid JSON,
    [importFromChrome] returns an error, and leaves the collection as it
    was, when the document is a boolean, a number, a string or an array, or
    an object with a [roots] member (the key compared without regard to
    case) whose value is not an object or [null].  It returns no error and
    leaves the collection as it was when the document is [null] or an
    object in which every member either is not a [roots] member or is
    [null]: a document without [roots] is imported as one with no
    bookmarks. *)
Theorem importFromChrome_format (os : OS) (path : string) (doc : json) (state : AppState) :
  rangesMaps os ->
  ReadFile os path = Data (Valid doc) ->
  (notObjectOrNull doc = true ->
     exists err, importFromChrome os path state = (state, Some err)) /\
  (forall members,
     doc = JObj members ->
     (exists key val, (key, val) ∈ members /\ isRootsKey key = true
                      /\ notObjectOrNull val = true) ->
     exists err, importFromChrome os path state = (state, Some err)) /\
  (doc = JNull -> importFromChrome os path state = (state, None)) /\
  (forall members,
     doc = JObj members ->
     (forall key val, (key, val) ∈ members -> isRootsKey key = false \/ val = JNull) ->
     importFromChrome os path state = (state, None)).
Proof.
  intros Hrange Hread. unfold importFromChrome. rewrite Hread.
  split; [|split; [|split]].
  - intros Hdoc. destruct doc; try discriminate Hdoc; by eexists.
  - intros members -> Hbad. simpl.
    rewrite decodeRootFields_type_error by done. by eexists.
  - intros ->. simpl. by rewrite rangeMap_empty.
  - intros members -> Hnone. simpl.
    rewrite decodeRootFields_no_roots by done. by rewrite rangeMap_empty.
Qed.

Lemma importFromChrome_format_witness :
  let os := withDocument (exampleOS false) (JObj [("version", JNum "1")]) in
  importFromChrome os "Bookmarks" emptyState = (emptyState, None).
Proof.
  intros os.
  apply (proj2 (proj2 (proj2
           (importFromChrome_format os "Bookmarks" (JObj [("version", JNum "1")]) emptyState
              (exampleOS_rangesMaps false) eq_refl)))
           [("version", JNum "1")] eq_refl).
  intros key val Hin. apply list_elem_of_singleton in Hin. injection Hin as -> ->.
  left. reflexivity.
Defined.

(** C2 as stated fails on the document [{}]: it is valid JSON without a
    [roots] mapping, and the import returns no error and an unchanged
    collection. *)
Lemma importFromChrome_accepts_missing_roots :
  let os := withDocument (exampleOS false) (JObj []) in
  ReadFile os "Bookmarks" = Data (Valid (JObj [])) /\
  ~ hasRootsMapping (JObj []) /\
  importFromChrome os "Bookmarks" emptyState = (emptyState, None).
Proof.
  intros os. split; [reflexivity|]. split; [|reflexivity].
  intros (members & nodes & Heq & Hin). injection Heq as <-. by apply elem_of_nil in Hin.
Qed.

(** ** The walk goes on after the first database *)

Lemma firefoxWalkFn_file os path name v :
  firefoxWalkFn os path (Some (File name)) None v
  = if String.eqb name "places.sqlite"
    then (fst (firefoxWalkFn os path (Some (File "places.sqlite")) None v), Some SkipDir)
    else (v, None).
Proof.
  unfold firefoxWalkFn. simpl. destruct (String.eqb_spec name "places.sqlite") as [->|]; [|done].
  simpl. by destruct (importFromFirefox os path (ivState v)) as [st [e|]].
Qed.

(** In a profile the walk stops at [places.sqlite]: the files after it are
    not visited, the database is read once. *)
Lemma walkDir_profile os dir name files v :
  walkDir (Join os) (firefoxWalkFn os) dir (profileDir name files) v
  = (if holdsDatabase files then readProfile os dir v else v, None).
Proof.
  unfold profileDir. cbn [walkDir].
  assert (firefoxWalkFn os dir (Some (Dir name None (map File files))) None v = (v, None))
    as -> by done.
  revert v. induction files as [|f files IH]; intros v; [done|].
  cbn [map walkDir entryName holdsDatabase existsb]. rewrite firefoxWalkFn_file.
  rewrite String.eqb_sym.
  destruct (String.eqb_spec "places.sqlite" f) as [<-|Hne]; [done|].
  cbn [orb]. apply IH.
Qed.

(** Under a root that holds profiles, the walk enters every profile in
    turn and reads the database of each one that has it. *)
Lemma walkDir_every_profile os root name (profiles : list (string * list string)) v :
  walkDir (Join os) (firefoxWalkFn os) root
          (Dir name None (map (fun p => profileDir (fst p) (snd p)) profiles)) v
  = (fold_left (fun v p => if holdsDatabase (snd p)
                           then readProfile os (Join os root (fst p)) v else v)
               profiles v, None).
Proof.
  cbn [walkDir].
  match goal with
  | |- context [firefoxWalkFn os root (Some ?d) None v] =>
      assert (firefoxWalkFn os root (Some d) None v = (v, None)) as -> by done
  end.
  revert v. induction profiles as [|[n files] profiles IH]; intros v; [done|].
  cbn [map fst snd fold_left].
  change (entryName (profileDir n files)) with n.
  rewrite walkDir_profile. apply IH.
Qed.

(** C1 on the example environment, whose Firefox directory holds the
    profiles [a.default] and [b.default-release], each with a
    [places.sqlite]: [SkipDir], returned for a file, ends the walk of the
    profile that holds the file only; the walk goes on into the second
    profile and its database is read too (Site D, and a second line for
    Firefox). *)
Theorem importBookmarks_reads_every_profile :
  importBookmarks (exampleOS false) emptyState
  = Returned
      ({| Bookmarks := [ {| ID := 1; Name := "A"; URL := "http://a"; Favorite := false |};
                         {| ID := 2; Name := "B"; URL := "http://b"; Favorite := false |};
                         {| ID := 3; Name := "Site C"; URL := "http://c"; Favorite := false |};
                         {| ID := 4; Name := "Site D"; URL := "http://d"; Favorite := false |} ];
          config := {| DefaultBrowserCmd := "" |};
          nextID := 5 |},
       [ "Successfully checked for Chrome bookmarks.";
         "Successfully checked for Firefox bookmarks.";
         "Successfully checked for Firefox bookmarks.";
         "✅ Imported 4 new bookmarks. Run 'save' to persist them." ]).
Proof. vm_compute. reflexivity. Qed.

(** ** Tokens of a command line *)

Lemma spaceWidth_cut u v : u <> "" -> spaceWidth (u +:+ v) = 0%nat -> spaceWidth u = 0%nat.
Proof.
  intros Hu. destruct u as [|c [|c2 [|c3 u]]]; [done|..]; rewrite ?append_String.
  - change ("" +:+ v) with v. unfold spaceWidth.
    destruct (byteIn 9 13 c || byteIn 32 32 c); [done|]. by intros _.
  - change ("" +:+ v) with v. unfold spaceWidth.
    destruct (byteIn 9 13 c || byteIn 32 32 c); [done|].
    destruct (byteIn 194 194 c && (byteIn 133 133 c2 || byteIn 160 160 c2)); [done|].
    by intros _.
  - done.
Qed.

Lemma spaceWidth_before_space u t :
  u <> "" -> spaceWidth u = 0%nat -> spaceWidth (u +:+ String " " t) = 0%nat.
Proof.
  intros Hu. destruct u as [|c [|c2 [|c3 u]]]; [done|..]; rewrite ?append_String.
  - change ("" +:+ String " " t) with (String " " t). unfold spaceWidth.
    destruct (byteIn 9 13 c || byteIn 32 32 c); [done|]. intros _.
    change (byteIn 133 133 " " || byteIn 160 160 " ") with false. rewrite andb_false_r.
    destruct t as [|c3 t]; [done|].
    change (byteIn 154 154 " ") with false. change (byteIn 128 128 " ") with false.
    change (byteIn 129 129 " ") with false. by rewrite !andb_false_r.
  - change ("" +:+ String " " t) with (String " " t). unfold spaceWidth.
    destruct (byteIn 9 13 c || byteIn 32 32 c); [done|].
    destruct (byteIn 194 194 c && (byteIn 133 133 c2 || byteIn 160 160 c2)); [done|].
    intros _.
    change (byteIn 128 128 " ") with false. change (byteIn 159 159 " ") with false.
    change (byteIn 128 138 " " || byteIn 168 169 " " || byteIn 175 175 " ") with false.
    by rewrite !andb_false_r.
  - done.
Qed.

Lemma noSpaceBefore_snoc s cur c :
  noSpaceBefore (String c s) cur -> spaceWidth (String c s) = 0%nat ->
  noSpaceBefore s (cur +:+ String c EmptyString).
Proof.
  intros Hcur Hc. induction cur as [|x cur IH].
  - simpl. by split.
  - destruct Hcur as [Hx Hcur]. rewrite append_String. split; [|by apply IH].
    by rewrite <- append_String, append_assoc_byte.
Qed.

Lemma noSpaceBefore_noSpace s cur : noSpaceBefore s cur -> noSpace cur.
Proof.
  induction cur as [|x cur IH]; [done|]. intros [Hx Hcur]. split; [|by apply IH].
  by apply (spaceWidth_cut _ s).
Qed.

(** Every string that [strings.Fields] returns is a token. *)
Lemma fieldsFrom_tokens s : forall skip cur,
  (skip = 0%nat /\ noSpaceBefore s cur) \/ cur = "" ->
  Forall isToken (fieldsFrom s skip cur).
Proof.
  induction s as [|c s IH]; intros skip cur Hcur.
  - simpl. destruct cur as [|x cur]; [constructor|].
    destruct Hcur as [[_ Hcur]|?]; [|done].
    constructor; [|constructor]. split; [done|]. by apply (noSpaceBefore_noSpace "").
  - cbn [fieldsFrom]. destruct skip as [|k].
    + destruct (spaceWidth (String c s)) as [|k] eqn:Hw.
      * apply IH. left. split; [done|].
        destruct Hcur as [[_ Hcur]| ->]; [by apply noSpaceBefore_snoc|].
        change ("" +:+ String c "") with (String c ""). split; [|done].
        exact Hw.
      * apply Forall_app. split; [|apply IH; by right].
        destruct cur as [|x cur]; [constructor|].
        destruct Hcur as [[_ Hcur]|?]; [|done].
        constructor; [|constructor]. split; [done|].
        by apply (noSpaceBefore_noSpace (String c s)).
    + apply IH. right. by destruct Hcur as [[? _]|?].
Qed.

Lemma Fields_tokens s : Forall isToken (Fields s).
Proof. apply fieldsFrom_tokens. by right. Qed.

Lemma fieldsFrom_token_end w cur :
  noSpace w -> fieldsFrom w 0%nat cur = flushField (cur +:+ w).
Proof.
  revert cur. induction w as [|c w IH]; intros cur Hw.
  - simpl. by rewrite append_empty_r.
  - destruct Hw as [Hc Hw]. cbn [fieldsFrom]. rewrite Hc.
    rewrite IH by done. by rewrite append_assoc_byte.
Qed.

Lemma fieldsFrom_token_space w t cur :
  noSpace w ->
  fieldsFrom (w +:+ String " " t) 0%nat cur
  = flushField (cur +:+ w) ++ fieldsFrom t 0%nat "".
Proof.
  revert cur. induction w as [|c w IH]; intros cur Hw.
  - change ("" +:+ String " " t) with (String " " t). cbn [fieldsFrom].
    change (spaceWidth (String " " t)) with 1%nat. cbv iota. by rewrite append_empty_r.
  - destruct Hw as [Hc Hw]. rewrite append_String. cbn [fieldsFrom].
    rewrite <- append_String, spaceWidth_before_space by done.
    rewrite IH by done. by rewrite append_assoc_byte.
Qed.

(** Splitting what [strings.Join] made of tokens gives the tokens back. *)
Lemma Fields_JoinStrings args :
  Forall isToken args -> Fields (JoinStrings args " ") = args.
Proof.
  unfold Fields, JoinStrings. induction 1 as [|w args [Hne Hw] Hargs IH]; [done|].
  destruct args as [|w' args].
  - cbn [String.concat]. rewrite fieldsFrom_token_end by done.
    change ("" +:+ w) with w. by destruct w.
  - change (String.concat " " (w :: w' :: args))
      with (w +:+ String " " (String.concat " " (w' :: args))).
    rewrite (fieldsFrom_token_space w _ "") by done. rewrite IH.
    change ("" +:+ w) with w. by destruct w.
Qed.


(** * Further properties of the program *)

(** ** The merges of an import run *)

Section WalkDirSimulation.
Context {St1 St2 : Type} (join : string -> string -> string).
Context (fn1 : string -> option fsEntry -> option string -> St1 -> St1 * option walkErr).
Context (fn2 : string -> option fsEntry -> option string -> St2 -> St2 * option walkErr).
Context (Q : St1 -> St2 -> Prop).

Hypothesis fn_sim : forall path d err st1 st2,
  Q st1 st2 -> simulates Q (fn1 path d err st1) (fn2 path d err st2).

Lemma walkDir_simulation d : forall path st1 st2,
  Q st1 st2 -> simulates Q (walkDir join fn1 path d st1) (walkDir join fn2 path d st2).
Proof.
  induction d as [name|name readErr entries IH] using fsEntry_forall_ind;
    intros path st1 st2 HQ; cbn [walkDir].
  - by apply fn_sim.
  - destruct (fn_sim path (Some (Dir name readErr entries)) None st1 st2 HQ) as [HQ1 He1].
    destruct (fn1 path (Some (Dir name readErr entries)) None st1) as [a1 e1].
    destruct (fn2 path (Some (Dir name readErr entries)) None st2) as [a2 e2].
    simpl in HQ1, He1. subst e2.
    destruct e1 as [[| |e]|]; [by split..|].
    assert (simulates Q
              match readErr with
              | Some e => fn1 path (Some (Dir name readErr entries)) (Some e) a1
              | None => (a1, None)
              end
              match readErr with
              | Some e => fn2 path (Some (Dir name readErr entries)) (Some e) a2
              | None => (a2, None)
              end) as Hread.
    { destruct readErr as [e|]; [by apply fn_sim | by split]. }
    destruct (match readErr with
              | Some e => fn1 path (Some (Dir name readErr entries)) (Some e) a1
              | None => (a1, None)
              end) as [b1 f1].
    destruct (match readErr with
              | Some e => fn2 path (Some (Dir name readErr entries)) (Some e) a2
              | None => (a2, None)
              end) as [b2 f2].
    destruct Hread as [HQ2 He2]. simpl in HQ2, He2. subst f2.
    destruct f1 as [[| |e]|]; [by split..|].
    clear HQ HQ1. revert b1 b2 HQ2.
    induction IH as [|e es He _ IHes]; intros b1 b2 HQ2; [by split|].
    destruct (He (join path (entryName e)) b1 b2 HQ2) as [HQ3 He3].
    destruct (walkDir join fn1 (join path (entryName e)) e b1) as [c1 g1].
    destruct (walkDir join fn2 (join path (entryName e)) e b2) as [c2 g2].
    simpl in HQ3, He3. subst g2.
    destruct g1 as [[| |err]|]; [by split..|]. by apply IHes.
Qed.

Lemma WalkDir_simulation lstat root st1 st2 :
  Q st1 st2 -> simulates Q (WalkDir join fn1 lstat root st1) (WalkDir join fn2 lstat root st2).
Proof.
  intros HQ. unfold WalkDir.
  assert (simulates Q
            match lstat root with
            | Some d => walkDir join fn1 root d st1
            | None => fn1 root None (Some "lstat") st1
            end
            match lstat root with
            | Some d => walkDir join fn2 root d st2
            | None => fn2 root None (Some "lstat") st2
            end) as H.
  { destruct (lstat root); [by apply walkDir_simulation | by apply fn_sim]. }
  destruct (match lstat root with
            | Some d => walkDir join fn1 root d st1
            | None => fn1 root None (Some "lstat") st1
            end) as [a1 e1].
  destruct (match lstat root with
            | Some d => walkDir join fn2 root d st2
            | None => fn2 root None (Some "lstat") st2
            end) as [a2 e2].
  destruct H as [H1 H2]. simpl in H1, H2. subst e2.
  by destruct e1 as [[| |e]|].
Qed.
End WalkDirSimulation.

Lemma scanRows_scannedRows rows s : scanRows rows s = addBookmarks (scannedRows rows) s.
Proof.
  revert s. induction rows as [|[[title url]|] rows IH]; intros s; [done|..]; simpl; apply IH.
Qed.

Lemma importFromFirefox_merges os path s :
  fst (importFromFirefox os path s) = addBookmarks (firefoxFileMerges os path) s.
Proof.
  unfold importFromFirefox, firefoxFileMerges.
  destruct (Query os _); try done. simpl. apply scanRows_scannedRows.
Qed.

Lemma importFromChrome_merges os path s :
  fst (importFromChrome os path s) = addBookmarks (chromeFileMerges os path) s.
Proof.
  unfold importFromChrome, chromeFileMerges.
  destruct (ReadFile os path) as [e|[e|doc]]; try done.
  destruct (unmarshalRoot doc); [|done]. simpl. apply parseRoots_merges.
Qed.

Lemma importChromePath_merges os browser v path :
  ivState (importChromePath os browser v path)
  = addBookmarks (chromePathMerges os path) (ivState v).
Proof.
  unfold importChromePath, chromePathMerges. destruct (Stat os path); [|done].
  rewrite <- importFromChrome_merges.
  by destruct (importFromChrome os path (ivState v)) as [st [e|]].
Qed.

Lemma importChromeLike_merges os paths v :
  ivState (importChromeLike os paths v)
  = addBookmarks (chromeLikeMerges os paths) (ivState v).
Proof.
  unfold importChromeLike, chromeLikeMerges. generalize (rangeMap os paths). intros l.
  revert v. induction l as [|[browser ps] l IH]; intros v; [done|].
  cbn [fold_left flat_map fst snd]. rewrite IH, addBookmarks_app. f_equal.
  clear IH. revert v. induction ps as [|p ps IHps]; intros v; [done|].
  cbn [fold_left flat_map]. by rewrite IHps, addBookmarks_app, importChromePath_merges.
Qed.

Lemma firefoxWalkFn_simulation os s0 path d err v log :
  ivState v = addBookmarks log s0 ->
  simulates (fun v log => ivState v = addBookmarks log s0)
            (firefoxWalkFn os path d err v) (firefoxLogFn os path d err log).
Proof.
  intros Hv. unfold firefoxWalkFn, firefoxLogFn, simulates.
  destruct err as [e|]; [done|]. destruct d as [d|]; [|done].
  destruct (negb (entryIsDir d) && String.eqb (entryName d) "places.sqlite"); [|done].
  pose proof (importFromFirefox_merges os path (ivState v)) as Hm.
  destruct (importFromFirefox os path (ivState v)) as [st [e|]]; simpl in *;
    by rewrite addBookmarks_app, <- Hv.
Qed.

Lemma importFirefox_merges os dirs v :
  ivState (importFirefox os dirs v) = addBookmarks (firefoxMerges os dirs) (ivState v).
Proof.
  unfold importFirefox, firefoxMerges. destruct (dirs !! "firefox_dir") as [dir|]; [|done].
  set (v0 := mkVars (ivState v) (foundAnyBrowser v) false (stdout v)).
  destruct (WalkDir_simulation (Join os) (firefoxWalkFn os) (firefoxLogFn os)
              (fun w log => ivState w = addBookmarks log (ivState v))
              (fun path d err v1 log => firefoxWalkFn_simulation os (ivState v) path d err v1 log)
              (Lstat os) dir v0 [] eq_refl) as [H _].
  by destruct (negb (foundFirefoxDB _)).
Qed.

Lemma importBookmarks_importMerges os s s' out :
  importBookmarks os s = Returned (s', out) -> s' = addBookmarks (importMerges os) s.
Proof.
  intros Hrun. apply importBookmarks_Returned in Hrun as (homeDir & Hhome & ->).
  unfold importMerges, getBrowserPaths. rewrite Hhome.
  destruct (browserPathTables os homeDir) as [chromeLikePaths firefoxDirs]. cbn [fst snd].
  by rewrite importFirefox_merges, importChromeLike_merges, addBookmarks_app.
Qed.

(** X1. The collection an import run leaves is the starting collection
    with a fixed list of (name, URL) pairs merged into it in order; the
    list is determined by the environment (files, databases, directories,
    range order) and does not depend on the starting collection.  The run
    returns when the lookup of the current user succeeded and panics
    otherwise. *)
Theorem importBookmarks_merges (os : OS) (s : AppState) :
  (HomeDir os = None -> exists msg, importBookmarks os s = Panicked msg) /\
  (HomeDir os <> None ->
   exists out, importBookmarks os s = Returned (addBookmarks (importMerges os) s, out)).
Proof.
  split.
  - intros Hnone. eexists. by apply importBookmarks_panics.
  - intros Hhome. destruct (HomeDir os) as [homeDir|] eqn:E; [|done].
    destruct (importBookmarks_returns os s homeDir E) as [out Hret].
    exists out. rewrite Hret. f_equal. f_equal. by eapply importBookmarks_importMerges.
Qed.

(** ** A second import run *)

Lemma elem_of_flat_map {A B} (f : A -> list B) (l : list A) (y : B) :
  y ∈ flat_map f l <-> exists x, x ∈ l /\ y ∈ f x.
Proof.
  rewrite list_elem_of_In, in_flat_map. split; intros (x & H1 & H2); exists x.
  - by rewrite !list_elem_of_In.
  - by rewrite <- !list_elem_of_In.
Qed.

Lemma chromeFileMerges_order os1 os2 path p :
  rangesMaps os1 -> rangesMaps os2 -> ReadFile os1 = ReadFile os2 ->
  p ∈ chromeFileMerges os2 path -> p ∈ chromeFileMerges os1 path.
Proof.
  intros H1 H2 Hr. unfold chromeFileMerges. rewrite Hr.
  destruct (ReadFile os2 path) as [e|[e|doc]]; try done.
  destruct (unmarshalRoot doc) as [roots|]; [|done].
  by apply mergesOfRoots_rangeMap.
Qed.

Lemma chromeLikeMerges_order os1 os2 paths p :
  rangesMaps os1 -> rangesMaps os2 -> Stat os1 = Stat os2 -> ReadFile os1 = ReadFile os2 ->
  p ∈ chromeLikeMerges os2 paths -> p ∈ chromeLikeMerges os1 paths.
Proof.
  intros H1 H2 Hs Hr. unfold chromeLikeMerges. rewrite !elem_of_flat_map.
  intros (bp & Hbp & Hp). exists bp. split.
  - unfold rangeMap in *. rewrite (H1 _ (map_to_list paths)).
    by rewrite (H2 _ (map_to_list paths)) in Hbp.
  - rewrite elem_of_flat_map in *. destruct Hp as (path & Hpath & Hp).
    exists path. split; [done|]. unfold chromePathMerges in *. rewrite Hs.
    destruct (Stat os2 path); [|done]. by apply (chromeFileMerges_order os1 os2).
Qed.

Lemma firefoxMerges_sameMachine os1 os2 dirs :
  Join os1 = Join os2 -> Lstat os1 = Lstat os2 -> Query os1 = Query os2 ->
  firefoxMerges os1 dirs = firefoxMerges os2 dirs.
Proof.
  intros Hj Hl Hq. unfold firefoxMerges. destruct (dirs !! "firefox_dir") as [dir|]; [|done].
  rewrite Hj, Hl.
  destruct (WalkDir_simulation (Join os2) (firefoxLogFn os1) (firefoxLogFn os2) eq) with
    (lstat := Lstat os2) (root := dir) (st1 := @nil (string * string))
    (st2 := @nil (string * string)) as [H _]; [|done|done].
  intros path d err st1 st2 ->. unfold simulates, firefoxLogFn, firefoxFileMerges.
  by rewrite Hq.
Qed.

Lemma getBrowserPaths_sameMachine os1 os2 :
  sameMachine os1 os2 -> getBrowserPaths os1 = getBrowserPaths os2.
Proof.
  intros (Hg & Hh & Hj & _). unfold getBrowserPaths, browserPathTables.
  by rewrite Hg, Hh, Hj.
Qed.

Lemma importMerges_order os1 os2 p :
  rangesMaps os1 -> rangesMaps os2 -> sameMachine os1 os2 ->
  p ∈ importMerges os2 -> p ∈ importMerges os1.
Proof.
  intros H1 H2 Hsame. pose proof (getBrowserPaths_sameMachine _ _ Hsame) as Hpaths.
  destruct Hsame as (_ & _ & Hj & Hs & Hr & Hl & Hq).
  unfold importMerges. rewrite Hpaths.
  destruct (getBrowserPaths os2) as [[chromeLikePaths firefoxDirs]|msg]; [|done].
  rewrite !elem_of_app. intros [Hp|Hp]; [left|right].
  - by apply (chromeLikeMerges_order os1 os2).
  - by rewrite (firefoxMerges_sameMachine os1 os2).
Qed.

(** X2. An import run that follows another one on the same machine adds
    nothing: it returns the state the first run left (bookmarks,
    identifiers, configuration, next identifier), whatever order each run
    ranges its maps in, and its summary line is not the one that reports
    imported bookmarks. *)
Theorem importBookmarks_idempotent (os1 os2 : OS) (s s1 : AppState) (out1 : list string) :
  rangesMaps os1 -> rangesMaps os2 -> sameMachine os1 os2 ->
  importBookmarks os1 s = Returned (s1, out1) ->
  exists lines summary,
    importBookmarks os2 s1 = Returned (s1, lines ++ [summary]) /\
    (summary = "No new bookmarks found." \/
     summary = "Could not find any supported browser bookmarks on default paths.").
Proof.
  intros H1 H2 Hsame Hrun1.
  pose proof (importBookmarks_importMerges _ _ _ _ Hrun1) as Hs1.
  apply importBookmarks_Returned in Hrun1 as (homeDir & Hhome1 & _).
  assert (HomeDir os2 = Some homeDir) as Hhome2.
  { destruct Hsame as (_ & Hh & _). by rewrite <- Hh. }
  assert (forall s2 out2, importBookmarks os2 s1 = Returned (s2, out2) -> s2 = s1) as Hfix.
  { intros s2 out2 Hrun2. rewrite (importBookmarks_importMerges _ _ _ _ Hrun2).
    apply addBookmarks_noop. intros p Hp. rewrite Hs1.
    apply addBookmarks_knows. by apply (importMerges_order os1 os2). }
  destruct (importBookmarks_returns os2 s1 homeDir Hhome2) as [out2 Hret].
  specialize (Hfix _ _ Hret). revert Hret Hfix.
  unfold importBookmarks, getBrowserPaths. rewrite Hhome2.
  destruct (browserPathTables os2 homeDir) as [c2 f2]. cbn [fst snd].
  intros _ Hfix. rewrite Hfix, Z.sub_diag. change (0 <? 0) with false. cbv iota.
  eexists _, _. split; [reflexivity|].
  by destruct (foundAnyBrowser _); [left|right].
Qed.

Lemma exampleOS_sameMachine : sameMachine (exampleOS false) (exampleOS true).
Proof. by repeat split. Qed.

Lemma exampleOS_import reversed :
  importBookmarks (exampleOS reversed) emptyState
  = Returned (exampleImported, exampleImportOutput).
Proof. destruct reversed; vm_compute; reflexivity. Qed.

Lemma importBookmarks_idempotent_witness :
  exists lines summary,
    importBookmarks (exampleOS true) exampleImported
    = Returned (exampleImported, lines ++ [summary]).
Proof.
  destruct (importBookmarks_idempotent (exampleOS false) (exampleOS true) emptyState
              exampleImported exampleImportOutput) as (lines & summary & Hrun & _).
  - apply exampleOS_rangesMaps.
  - apply exampleOS_rangesMaps.
  - apply exampleOS_sameMachine.
  - apply exampleOS_import.
  - exists lines, summary. exact Hrun.
Defined.

(** ** What a command can do to the state *)

Lemma handleCommand_effect os s input shouldExit s' out :
  handleCommand os s input = Returned (shouldExit, s', out) -> commandEffect os s s'.
Proof.
  unfold handleCommand. destruct (Fields input) as [|command args] eqn:Hin.
  { intros [= <- <- <-]. constructor. }
  destruct (String.eqb command "list" || String.eqb command "ls").
  { unfold cmdList. intros [= <- <- <-]. constructor. }
  destruct (String.eqb command "open").
  { destruct (cmdOpen os s args); [|done]. intros [= <- <- <-]. constructor. }
  destruct (String.eqb command "fav").
  { unfold cmdFav. destruct args as [|a args]; [intros [= <- <- <-]; constructor|].
    destruct (Atoi a) as [id|]; [|intros [= <- <- <-]; constructor].
    destruct (toggleFav (Bookmarks s) id) as [[bs line]|] eqn:E;
      intros [= <- <- <-]; [by econstructor | constructor]. }
  destruct (String.eqb command "import").
  { destruct (importBookmarks os s) as [[s1 o1]|msg] eqn:E; [|done].
    intros [= <- <- <-]. by econstructor. }
  destruct (String.eqb command "set-browser").
  { unfold cmdSetBrowser. pose proof (Fields_tokens input) as Htok. rewrite Hin in Htok.
    apply Forall_cons in Htok as [_ Htok].
    destruct args as [|a args]; intros [= <- <- <-]; [constructor|].
    by apply (EffectSetBrowser os s (a :: args)). }
  destruct (String.eqb command "save"); [intros [= <- <- <-]; constructor|].
  destruct (String.eqb command "help"); [intros [= <- <- <-]; constructor|].
  destruct (String.eqb command "exit" || String.eqb command "quit");
    intros [= <- <- <-]; constructor.
Qed.

(** *** The favorite toggle *)

Lemma toggleFav_Some bs id bs' line :
  toggleFav bs id = Some (bs', line) ->
  exists i b,
    bs !! i = Some b /\ ID b = id /\
    (forall j b0, (j < i)%nat -> bs !! j = Some b0 -> ID b0 <> id) /\
    bs' = <[i := flipFavorite b]> bs.
Proof.
  revert bs' line. induction bs as [|x bs IH]; intros bs' line; [done|].
  simpl. destruct (Z.eqb_spec (ID x) id) as [Heq|Hne].
  - intros [= <- <-]. exists 0%nat, x. repeat split; try done. intros j b0 Hj. lia.
  - destruct (toggleFav bs id) as [[bs'' line'']|]; [|done].
    intros [= <- <-]. destruct (IH _ _ eq_refl) as (i & b & Hi & Hb & Hfirst & ->).
    exists (S i), b. repeat split; try done.
    intros [|j] b0 Hj Hl; simpl in Hl.
    + by injection Hl as <-.
    + apply (Hfirst j); [lia|done].
Qed.

Lemma toggleFav_None bs id :
  toggleFav bs id = None <-> forall b, b ∈ bs -> ID b <> id.
Proof.
  induction bs as [|x bs IH]; simpl.
  - split; [|done]. intros _ b Hb. by apply elem_of_nil in Hb.
  - destruct (Z.eqb_spec (ID x) id) as [Heq|Hne].
    + split; [done|]. intros H. by destruct (H x ltac:(left)).
    + destruct (toggleFav bs id) as [[bs' line]|].
      * split; [done|]. intros H.
        assert (Some (bs', line) = None) as Habs; [|done].
        apply IH. intros b Hb. apply H. by right.
      * split; [|done]. intros _ b Hb. apply elem_of_cons in Hb as [->|Hb]; [done|].
        by apply IH.
Qed.

Lemma toggleFav_entries bs id bs' line :
  toggleFav bs id = Some (bs', line) -> map entry bs' = map entry bs.
Proof.
  revert bs' line. induction bs as [|x bs IH]; intros bs' line; [done|].
  simpl. destruct (ID x =? id).
  - by intros [= <- <-].
  - destruct (toggleFav bs id) as [[bs'' line'']|]; [|done].
    intros [= <- <-]. simpl. f_equal. by eapply IH.
Qed.

Lemma toggleFav_twice bs id bs' line :
  toggleFav bs id = Some (bs', line) -> exists line', toggleFav bs' id = Some (bs, line').
Proof.
  revert bs' line. induction bs as [|x bs IH]; intros bs' line; [done|].
  simpl. destruct (ID x =? id) eqn:E.
  - intros [= <- <-]. simpl. rewrite E. unfold flipFavorite. simpl.
    rewrite negb_involutive. destruct x. by eexists.
  - destruct (toggleFav bs id) as [[bs'' line'']|]; [|done].
    intros [= <- <-]. simpl. rewrite E.
    destruct (IH _ _ eq_refl) as [line' ->]. by eexists.
Qed.

Lemma entries_ids bs bs' : map entry bs' = map entry bs -> ids bs' = ids bs.
Proof.
  intros H. unfold ids.
  assert (forall l, map ID l = map (fun e => fst (fst e)) (map entry l)) as Hid.
  { intros l. rewrite map_map. done. }
  by rewrite !Hid, H.
Qed.

Lemma entries_urls bs bs' : map entry bs' = map entry bs -> map URL bs' = map URL bs.
Proof.
  intros H.
  assert (forall l, map URL l = map snd (map entry l)) as Hu.
  { intros l. rewrite map_map. done. }
  by rewrite !Hu, H.
Qed.

Lemma entries_length bs bs' : map entry bs' = map entry bs -> length bs' = length bs.
Proof. intros H. by rewrite <- (length_map entry bs'), H, length_map. Qed.

(** ** Invariants of a session *)

Lemma addBookmarks_invariant (P : AppState -> Prop) :
  (forall s name url,
     isInt (nextID s) -> (urlKnown (Bookmarks s) url = false -> nextID s < maxInt) ->
     P s -> P (addBookmark s name url)) ->
  forall l s, isInt (nextID s) -> nextID s + appended l s <= maxInt -> P s ->
              P (addBookmarks l s).
Proof.
  intros Hstep l. induction l as [|[name url] l IH]; intros s Hint Hroom HP; [done|].
  rewrite addBookmarks_cons. cbn [fst snd].
  unfold appended in *. rewrite addBookmarks_cons in Hroom. cbn [fst snd] in Hroom.
  pose proof (addBookmarks_length l (addBookmark s name url)) as Hlen.
  destruct (addBookmark_cases s name url) as [[E Hs]|(E & Hl & Hn)].
  - rewrite Hs in *. by apply IH.
  - assert (nextID s < maxInt) as Hlt by lia.
    apply IH.
    + by apply addBookmark_nextID_isInt.
    + rewrite Hn, wrapInt_succ by done. lia.
    + by apply Hstep.
Qed.

Lemma maxOf_snoc d l x : maxOf d (l ++ [x]) = Z.max x (maxOf d l).
Proof.
  induction l as [|y l IH]; simpl; [lia|]. rewrite IH. lia.
Qed.

Lemma maxOf_perm d l l' : Permutation l l' -> maxOf d l = maxOf d l'.
Proof. induction 1; simpl; lia. Qed.

Lemma tightCounter_addBookmark s name url :
  isInt (nextID s) -> (urlKnown (Bookmarks s) url = false -> nextID s < maxInt) ->
  tightCounter s -> tightCounter (addBookmark s name url).
Proof.
  intros Hint Hroom Ht. destruct (urlKnown (Bookmarks s) url) eqn:E.
  - by rewrite addBookmark_known.
  - rewrite addBookmark_new by done. unfold tightCounter in *. simpl.
    rewrite wrapInt_succ by auto. unfold ids. rewrite map_app. simpl.
    rewrite maxOf_snoc. fold (ids (Bookmarks s)). lia.
Qed.

Lemma uniqueURLs_addBookmark s name url :
  uniqueURLs s -> uniqueURLs (addBookmark s name url).
Proof.
  intros Hu. destruct (urlKnown (Bookmarks s) url) eqn:E.
  - by rewrite addBookmark_known.
  - rewrite addBookmark_new by done. unfold uniqueURLs in *. simpl.
    rewrite map_app. simpl. apply NoDup_app. split; [done|]. split; [|apply NoDup_singleton].
    intros u Hin Hu'. apply list_elem_of_singleton in Hu'. subst u.
    apply list_elem_of_fmap in Hin as (b & Hb & Hin).
    rewrite urlKnown_false in E. by apply (E b).
Qed.

Lemma uniqueURLs_addBookmarks l s : uniqueURLs s -> uniqueURLs (addBookmarks l s).
Proof.
  revert s. induction l as [|p l IH]; intros s H; [done|].
  rewrite addBookmarks_cons. by apply IH, uniqueURLs_addBookmark.
Qed.

Lemma importBookmarks_state os s s' out :
  importBookmarks os s = Returned (s', out) -> exists l, s' = addBookmarks l s.
Proof. intros Hrun. eexists. by eapply importBookmarks_importMerges. Qed.

Lemma sortSlice_perm os bs :
  sortsSlices os -> Permutation (sortSlice os (lessByName os) bs) bs.
Proof. intros H. apply (H _ (lessByName_strictWeakOrder os)). Qed.

Lemma commandEffect_uniqueURLs os s s' :
  sortsSlices os -> commandEffect os s s' -> uniqueURLs s -> uniqueURLs s'.
Proof.
  intros Hsort Heff Hu.
  destruct Heff as [| |id bs line Hfav|s' out Himp|args Hne Htok]; unfold uniqueURLs in *;
    simpl; try done.
  - by rewrite (sortSlice_perm os).
  - by rewrite (entries_urls _ _ (toggleFav_entries _ _ _ _ Hfav)).
  - destruct (importBookmarks_state os s s' out Himp) as [l ->].
    by apply uniqueURLs_addBookmarks.
Qed.

Lemma commandEffect_entries os s s' :
  sortsSlices os -> commandEffect os s s' ->
  exists added,
    Permutation (map entry (Bookmarks s')) (map entry (Bookmarks s) ++ map entry added) /\
    length (Bookmarks s') = (length (Bookmarks s) + length added)%nat.
Proof.
  intros Hsort Heff.
  destruct Heff as [| |id bs line Hfav|s' out Himp|args Hne Htok]; simpl.
  - exists []. by rewrite app_nil_r, Nat.add_0_r.
  - exists []. rewrite app_nil_r, Nat.add_0_r.
    pose proof (sortSlice_perm os (Bookmarks s) Hsort) as Hp.
    split; [by rewrite Hp | by apply Permutation_length].
  - exists []. rewrite app_nil_r, Nat.add_0_r.
    pose proof (toggleFav_entries _ _ _ _ Hfav) as He.
    split; [by rewrite He | by apply entries_length].
  - destruct (importBookmarks_state os s s' out Himp) as [l ->].
    destruct (addBookmarks_prefix l s) as [added Ha].
    exists added. rewrite Ha. by rewrite map_app, length_app.
  - exists []. by rewrite app_nil_r, Nat.add_0_r.
Qed.

(** X3. Every command keeps the URLs of the collection pairwise distinct:
    when no two bookmarks share a URL before a command, none do after it,
    whatever the command line. *)
Theorem handleCommand_keeps_uniqueURLs (os : OS) (s s' : AppState) (input : string)
  (shouldExit : bool) (out : list string) :
  sortsSlices os ->
  uniqueURLs s ->
  handleCommand os s input = Returned (shouldExit, s', out) ->
  uniqueURLs s'.
Proof.
  intros Hsort Hu Hrun. apply handleCommand_effect in Hrun.
  by apply (commandEffect_uniqueURLs os s s').
Qed.

Lemma handleCommand_keeps_uniqueURLs_witness :
  uniqueURLs exampleImported.
Proof.
  apply (handleCommand_keeps_uniqueURLs (exampleOS false) emptyState exampleImported "import" false
           exampleImportOutput).
  - apply exampleOS_sortsSlices.
  - constructor.
  - vm_compute. reflexivity.
Defined.

(** X4. No command removes a bookmark or changes an identifier, a name or
    a URL: up to order, the (identifier, name, URL) entries after a
    command are the entries before it followed by the entries of the
    bookmarks the command added. *)
Theorem handleCommand_keeps_entries (os : OS) (s s' : AppState) (input : string)
  (shouldExit : bool) (out : list string) :
  sortsSlices os ->
  handleCommand os s input = Returned (shouldExit, s', out) ->
  exists added,
    Permutation (map entry (Bookmarks s')) (map entry (Bookmarks s) ++ map entry added) /\
    length (Bookmarks s') = (length (Bookmarks s) + length added)%nat.
Proof.
  intros Hsort Hrun. apply handleCommand_effect in Hrun.
  by apply (commandEffect_entries os s s').
Qed.

Lemma handleCommand_keeps_entries_witness :
  exists added,
    Permutation
      (map entry (Bookmarks (fst (cmdList (exampleOS false) exampleImported ["links"]))))
      (map entry (Bookmarks exampleImported) ++ map entry added).
Proof.
  destruct (handleCommand_keeps_entries (exampleOS false) exampleImported
              (fst (cmdList (exampleOS false) exampleImported ["links"]))
              "list links" false
              (snd (cmdList (exampleOS false) exampleImported ["links"])))
    as (added & Hp & _).
  - apply exampleOS_sortsSlices.
  - vm_compute. reflexivity.
  - by exists added.
Defined.

(** X5. Every command keeps identifiers unique and below the next
    identifier, as long as the counter does not run past the largest
    [int] (the next identifier plus the number of bookmarks the command
    adds is at most [maxInt]). *)
Theorem handleCommand_keeps_idInvariant (os : OS) (s s' : AppState) (input : string)
  (shouldExit : bool) (out : list string) :
  sortsSlices os ->
  isInt (nextID s) ->
  handleCommand os s input = Returned (shouldExit, s', out) ->
  nextID s + growth s s' <= maxInt ->
  idInvariant s ->
  idInvariant s'.
Proof.
  intros Hsort Hint Hrun Hroom Hinv. apply handleCommand_effect in Hrun.
  destruct Hrun as [| |id bs line Hfav|s'' out' Himp|args Hne Htok]; try done.
  - destruct Hinv as [Hnd Hlt]. pose proof (sortSlice_perm os (Bookmarks s) Hsort) as Hp.
    split; simpl.
    + unfold ids. by rewrite Hp.
    + by rewrite Hp.
  - destruct Hinv as [Hnd Hlt]. pose proof (toggleFav_entries _ _ _ _ Hfav) as He.
    split; simpl.
    + by rewrite (entries_ids _ _ He).
    + apply Forall_forall. intros b Hb.
      assert (ID b ∈ ids (Bookmarks s)) as Hin.
      { rewrite <- (entries_ids _ _ He). by apply list_elem_of_fmap_2. }
      apply list_elem_of_fmap in Hin as (b0 & -> & Hb0).
      rewrite Forall_forall in Hlt. by apply Hlt.
  - destruct (importBookmarks_state os s s'' out' Himp) as [l Hl]. rewrite Hl in *.
    apply (addBookmarks_invariant idInvariant); try done.
    intros. by apply idInvariant_addBookmark.
Qed.

Lemma handleCommand_keeps_idInvariant_witness :
  idInvariant exampleImported.
Proof.
  apply (handleCommand_keeps_idInvariant (exampleOS false) emptyState exampleImported "import" false
           exampleImportOutput).
  - apply exampleOS_sortsSlices.
  - vm_compute. split; discriminate.
  - vm_compute. reflexivity.
  - vm_compute. discriminate.
  - split; constructor.
Defined.

(** X6. Every command keeps the next identifier equal to the largest
    identifier in use (or 0) plus one, as long as the counter does not run
    past the largest [int]. *)
Theorem handleCommand_keeps_tightCounter (os : OS) (s s' : AppState) (input : string)
  (shouldExit : bool) (out : list string) :
  sortsSlices os ->
  isInt (nextID s) ->
  handleCommand os s input = Returned (shouldExit, s', out) ->
  nextID s + growth s s' <= maxInt ->
  tightCounter s ->
  tightCounter s'.
Proof.
  intros Hsort Hint Hrun Hroom Ht. apply handleCommand_effect in Hrun.
  destruct Hrun as [| |id bs line Hfav|s'' out' Himp|args Hne Htok]; try done.
  - unfold tightCounter in *. simpl.
    rewrite (maxOf_perm 0 (ids (sortSlice os (lessByName os) (Bookmarks s)))
                        (ids (Bookmarks s))); [done|].
    unfold ids. apply Permutation_map. by apply sortSlice_perm.
  - unfold tightCounter in *. simpl.
    by rewrite (entries_ids _ _ (toggleFav_entries _ _ _ _ Hfav)).
  - destruct (importBookmarks_state os s s'' out' Himp) as [l Hl]. rewrite Hl in *.
    apply (addBookmarks_invariant tightCounter); try done.
    intros. by apply tightCounter_addBookmark.
Qed.

Lemma handleCommand_keeps_tightCounter_witness :
  tightCounter exampleImported.
Proof.
  apply (handleCommand_keeps_tightCounter (exampleOS false) emptyState exampleImported "import" false
           exampleImportOutput).
  - apply exampleOS_sortsSlices.
  - vm_compute. split; discriminate.
  - vm_compute. reflexivity.
  - vm_compute. discriminate.
  - reflexivity.
Defined.

(** ** The [fav] command *)

Lemma handleCommand_fav os s input args :
  Fields input = "fav" :: args ->
  handleCommand os s input = Returned (false, fst (cmdFav s args), snd (cmdFav s args)).
Proof.
  intros Hin. unfold handleCommand. rewrite Hin.
  change (String.eqb "fav" "list" || String.eqb "fav" "ls") with false.
  change (String.eqb "fav" "open") with false.
  change (String.eqb "fav" "fav") with true. cbv iota.
  by destruct (cmdFav s args).
Qed.

(** X8. [fav <id>] flips the favorite flag of the first bookmark that has
    the identifier and changes nothing else: the other bookmarks, the
    order, the configuration and the next identifier stay; when no
    bookmark has the identifier the state is unchanged and the answer is
    [ID not found.]. *)
Theorem fav_flips_first_match (os : OS) (s : AppState) (input a : string)
  (rest : list string) (id : Z) :
  Fields input = "fav" :: a :: rest ->
  Atoi a = Some id ->
  (exists i b line,
     Bookmarks s !! i = Some b /\ ID b = id /\
     (forall j b0, (j < i)%nat -> Bookmarks s !! j = Some b0 -> ID b0 <> id) /\
     handleCommand os s input
     = Returned (false,
                 {| Bookmarks := <[i := flipFavorite b]> (Bookmarks s);
                    config := config s; nextID := nextID s |},
                 [line])) \/
  ((forall b, b ∈ Bookmarks s -> ID b <> id) /\
   handleCommand os s input = Returned (false, s, ["ID not found."])).
Proof.
  intros Hin Ha. rewrite (handleCommand_fav os s input (a :: rest) Hin).
  unfold cmdFav. rewrite Ha.
  destruct (toggleFav (Bookmarks s) id) as [[bs line]|] eqn:E.
  - left. destruct (toggleFav_Some _ _ _ _ E) as (i & b & Hi & Hb & Hfirst & ->).
    by exists i, b, line.
  - right. split; [by apply toggleFav_None|done].
Qed.

Lemma fav_flips_first_match_witness :
  let s := {| Bookmarks := [ {| ID := 1; Name := "A"; URL := "http://a"; Favorite := false |};
                             {| ID := 2; Name := "B"; URL := "http://b"; Favorite := false |} ];
              config := {| DefaultBrowserCmd := "open" |};
              nextID := 3 |} in
  exists out,
    handleCommand (exampleOS false) s "fav 2 now"
    = Returned (false,
                {| Bookmarks := [ {| ID := 1; Name := "A"; URL := "http://a"; Favorite := false |};
                                  {| ID := 2; Name := "B"; URL := "http://b"; Favorite := true |} ];
                   config := {| DefaultBrowserCmd := "open" |};
                   nextID := 3 |}, out).
Proof.
  intros s.
  destruct (fav_flips_first_match (exampleOS false) s "fav 2 now" "2" ["now"] 2
              eq_refl eq_refl) as [(i & b & line & Hi & Hb & Hfirst & Hrun)|[Hnone _]].
  - exists [line]. rewrite Hrun. clear Hrun.
    destruct i as [|[|i]]; simpl in Hi; [| |done].
    + injection Hi as <-. discriminate Hb.
    + injection Hi as <-. reflexivity.
  - exfalso. apply (Hnone {| ID := 2; Name := "B"; URL := "http://b"; Favorite := false |});
      [right; left | reflexivity].
Defined.

(** X9. [fav] is its own inverse: giving the same [fav] command line a
    second time returns the state that preceded the first. *)
Theorem fav_twice_restores (os : OS) (s s' : AppState) (input : string)
  (args out : list string) (shouldExit : bool) :
  Fields input = "fav" :: args ->
  handleCommand os s input = Returned (shouldExit, s', out) ->
  exists out', handleCommand os s' input = Returned (shouldExit, s, out').
Proof.
  intros Hin. rewrite !(handleCommand_fav os _ input args Hin).
  unfold cmdFav. destruct args as [|a rest]; [intros [= <- <- <-]; by eexists|].
  destruct (Atoi a) as [id|]; [|intros [= <- <- <-]; by eexists].
  destruct (toggleFav (Bookmarks s) id) as [[bs line]|] eqn:E.
  - intros [= <- <- <-]. simpl. destruct (toggleFav_twice _ _ _ _ E) as [line' ->].
    simpl. destruct s. by eexists.
  - intros [= <- <- <-]. rewrite E. by eexists.
Qed.

Lemma fav_twice_restores_witness :
  let s := {| Bookmarks := [ {| ID := 1; Name := "A"; URL := "http://a"; Favorite := true |} ];
              config := {| DefaultBrowserCmd := "open" |};
              nextID := 2 |} in
  exists s' out out',
    handleCommand (exampleOS false) s "fav 1" = Returned (false, s', out) /\
    handleCommand (exampleOS false) s' "fav 1" = Returned (false, s, out').
Proof.
  intros s.
  destruct (handleCommand (exampleOS false) s "fav 1") as [[[e s'] out]|msg] eqn:E;
    [|discriminate E].
  assert (e = false) as -> by (vm_compute in E; by injection E as <- _ _).
  destruct (fav_twice_restores (exampleOS false) s s' "fav 1" ["1"] out false eq_refl E)
    as [out' H].
  by exists s', out, out'.
Defined.

(** ** The [open] command *)

Lemma findByID_unique bs b :
  NoDup (ids bs) -> b ∈ bs -> findByID bs (ID b) = Some b.
Proof.
  induction bs as [|x bs IH]; intros Hnd Hin; [by apply elem_of_nil in Hin|].
  simpl in Hnd. apply NoDup_cons in Hnd as [Hx Hnd]. simpl.
  apply elem_of_cons in Hin as [->|Hin]; [by rewrite Z.eqb_refl|].
  destruct (Z.eqb_spec (ID x) (ID b)) as [Heq|Hne]; [|by apply IH].
  exfalso. apply Hx. rewrite Heq. by apply list_elem_of_fmap_2.
Qed.

Lemma handleCommand_open os s input args :
  Fields input = "open" :: args ->
  handleCommand os s input
  = match cmdOpen os s args with
    | Returned out => Returned (false, s, out)
    | Panicked msg => Panicked msg
    end.
Proof.
  intros Hin. unfold handleCommand. rewrite Hin.
  change (String.eqb "open" "list" || String.eqb "open" "ls") with false.
  by change (String.eqb "open" "open") with true.
Qed.

(** X10. With a browser command that has at least one token and
    identifiers that are unique, [open <id>] for the identifier of a
    bookmark starts the first token as the program, with the remaining
    tokens followed by that bookmark's URL as arguments; it leaves the
    state unchanged, prints [Opening '<name>'...] and, when the start
    fails, the error. *)
Theorem open_starts_browser (os : OS) (s : AppState) (b : Bookmark) (program : string)
  (arguments : list string) :
  Fields (DefaultBrowserCmd (config s)) = program :: arguments ->
  NoDup (ids (Bookmarks s)) ->
  b ∈ Bookmarks s ->
  isInt (ID b) ->
  handleCommand os s ("open " +:+ Itoa (ID b))
  = Returned (false, s,
              ("Opening '" +:+ Name b +:+ "'...")
                :: match Start os program (arguments ++ [URL b]) with
                   | Some err => ["Error: " +:+ err]
                   | None => []
                   end).
Proof.
  intros Hcmd Hnd Hb Hint. destruct (Itoa_plain (ID b)) as [Hp Hne].
  rewrite (handleCommand_open os s _ [Itoa (ID b)]) by (by apply Fields_open).
  unfold cmdOpen. rewrite Atoi_Itoa by done. rewrite findByID_unique by done.
  rewrite Hcmd. by destruct (Start os program (arguments ++ [URL b])).
Qed.

Lemma open_starts_browser_witness :
  let s := {| Bookmarks := [ {| ID := 1; Name := "A"; URL := "http://a"; Favorite := false |};
                             {| ID := 2; Name := "B"; URL := "http://b"; Favorite := false |} ];
              config := {| DefaultBrowserCmd := "cmd /c start" |};
              nextID := 3 |} in
  handleCommand (exampleOS false) s "open 2" = Returned (false, s, ["Opening 'B'..."]).
Proof.
  intros s.
  apply (open_starts_browser (exampleOS false) s
           {| ID := 2; Name := "B"; URL := "http://b"; Favorite := false |}
           "cmd" ["/c"; "start"]).
  - reflexivity.
  - change (NoDup [1; 2]). apply NoDup_cons.
    split; [by intros ?%list_elem_of_singleton | apply NoDup_singleton].
  - right. left.
  - vm_compute. split; discriminate.
Defined.

Lemma findByID_Some bs id b : findByID bs id = Some b -> b ∈ bs /\ ID b = id.
Proof.
  induction bs as [|x bs IH]; [done|]. simpl.
  destruct (Z.eqb_spec (ID x) id) as [Heq|Hne].
  - intros [= <-]. split; [left|done].
  - intros H. destruct (IH H). split; [by right|done].
Qed.

Lemma handleCommand_panic_inv os s input msg :
  handleCommand os s input = Panicked msg ->
  (exists a rest id b,
     Fields input = "open" :: a :: rest /\ Atoi a = Some id /\
     b ∈ Bookmarks s /\ ID b = id /\
     Fields (DefaultBrowserCmd (config s)) = []) \/
  (exists args, Fields input = "import" :: args /\ HomeDir os = None).
Proof.
  intros Hrun. unfold handleCommand in Hrun.
  destruct (Fields input) as [|command args] eqn:Hin; [done|].
  destruct (String.eqb command "list" || String.eqb command "ls");
    [by destruct (cmdList os s args)|].
  destruct (String.eqb_spec command "open") as [->|_].
  - left. unfold cmdOpen in Hrun. destruct args as [|a rest]; [done|].
    destruct (Atoi a) as [id|] eqn:Ha; [|done].
    destruct (findByID (Bookmarks s) id) as [b|] eqn:Hf; [|done].
    destruct (Fields (DefaultBrowserCmd (config s))) as [|c0 crest] eqn:Hc.
    + destruct (findByID_Some _ _ _ Hf). by exists a, rest, id, b.
    + by destruct (Start os c0 (crest ++ [URL b])).
  - destruct (String.eqb command "fav"); [by destruct (cmdFav s args)|].
    destruct (String.eqb_spec command "import") as [->|_].
    + right. exists args. split; [done|].
      destruct (HomeDir os) as [homeDir|] eqn:Hhome; [|done].
      destruct (importBookmarks_returns os s homeDir Hhome) as [out Hret].
      by rewrite Hret in Hrun.
    + destruct (String.eqb command "set-browser"); [by destruct (cmdSetBrowser s args)|].
      destruct (String.eqb command "save"); [done|].
      destruct (String.eqb command "help"); [done|].
      by destruct (String.eqb command "exit" || String.eqb command "quit").
Qed.

Lemma handleCommand_import_panics os s input args :
  Fields input = "import" :: args -> HomeDir os = None ->
  handleCommand os s input = Panicked "invalid memory address or nil pointer dereference".
Proof.
  intros Hin Hnone. unfold handleCommand. rewrite Hin.
  change (String.eqb "import" "list" || String.eqb "import" "ls") with false.
  change (String.eqb "import" "open") with false.
  change (String.eqb "import" "fav") with false.
  change (String.eqb "import" "import") with true. cbv iota.
  by rewrite importBookmarks_panics.
Qed.

(** X11. The only ways a command panics: [handleCommand] panics exactly
    when the command is [open], its argument is the identifier of a
    bookmark of the collection and the browser command has no token (it is
    empty or blank), or when the command is [import] and the lookup of the
    current user failed. *)
Theorem handleCommand_panics_iff (os : OS) (s : AppState) (input : string) :
  (exists msg, handleCommand os s input = Panicked msg) <->
  (exists a rest id b,
     Fields input = "open" :: a :: rest /\ Atoi a = Some id /\
     b ∈ Bookmarks s /\ ID b = id /\
     Fields (DefaultBrowserCmd (config s)) = []) \/
  (exists args, Fields input = "import" :: args /\ HomeDir os = None).
Proof.
  split.
  - intros [msg Hrun]. by apply (handleCommand_panic_inv os s input msg).
  - intros [(a & rest & id & b & Hin & Ha & Hb & Hid & Hc)|(args & Hin & Hnone)].
    + subst id. eexists. by apply (handleCommand_open_panics os s input a rest b).
    + eexists. by apply (handleCommand_import_panics os s input args).
Qed.

(** X12. A command ends the session exactly when its first token is
    [exit] or [quit]; it then leaves the state unchanged and prints
    nothing. *)
Theorem handleCommand_exits_iff (os : OS) (s s' : AppState) (input : string)
  (out : list string) :
  handleCommand os s input = Returned (true, s', out) <->
  (exists command args,
     Fields input = command :: args /\ (command = "exit" \/ command = "quit")) /\
  s' = s /\ out = [].
Proof.
  unfold handleCommand. split.
  - destruct (Fields input) as [|command args]; [done|].
    destruct (String.eqb command "list" || String.eqb command "ls");
      [by destruct (cmdList os s args)|].
    destruct (String.eqb command "open"); [by destruct (cmdOpen os s args)|].
    destruct (String.eqb command "fav"); [by destruct (cmdFav s args)|].
    destruct (String.eqb command "import");
      [by destruct (importBookmarks os s) as [[? ?]|?]|].
    destruct (String.eqb command "set-browser"); [by destruct (cmdSetBrowser s args)|].
    destruct (String.eqb command "save"); [done|].
    destruct (String.eqb command "help"); [done|].
    destruct (String.eqb_spec command "exit") as [->|_].
    + intros [= <- <-]. split; [|done]. eexists _, _. split; [done|by left].
    + destruct (String.eqb_spec command "quit") as [->|_]; [|done].
      intros [= <- <-]. split; [|done]. eexists _, _. split; [done|by right].
  - intros [(command & args & -> & [-> | ->]) [-> ->]]; reflexivity.
Qed.

(** ** Import runs that find nothing *)

(** X13. On an operating system that is none of darwin, linux and
    windows an import run looks at no path at all: when the lookup of the
    current user succeeded it leaves the state unchanged and prints the
    one line saying that no supported browser was found; when the lookup
    failed it panics, as on every system, before the operating system is
    examined. *)
Theorem importBookmarks_unsupported_os (os : OS) (s : AppState) :
  rangesMaps os ->
  GOOS os <> "darwin" -> GOOS os <> "linux" -> GOOS os <> "windows" ->
  importBookmarks os s
  = match HomeDir os with
    | Some _ =>
        Returned (s, ["Could not find any supported browser bookmarks on default paths."])
    | None => Panicked "invalid memory address or nil pointer dereference"
    end.
Proof.
  intros Hrange H1 H2 H3. unfold importBookmarks, getBrowserPaths.
  destruct (HomeDir os) as [homeDir|]; [|done]. unfold browserPathTables.
  apply String.eqb_neq in H1, H2, H3. rewrite H1, H2, H3.
  unfold importChromeLike. rewrite rangeMap_empty by done.
  unfold importFirefox. rewrite lookup_empty. cbn [fold_left ivState stdout foundAnyBrowser].
  rewrite Z.sub_diag. reflexivity.
Qed.

Lemma importBookmarks_unsupported_os_witness :
  let os := {| GOOS := "freebsd"; HomeDir := Some "/home/u";
               Join := Join (exampleOS false); Stat := fun _ => true;
               ReadFile := ReadFile (exampleOS false); Lstat := Lstat (exampleOS false);
               Query := Query (exampleOS false); mapOrder := mapOrder (exampleOS false);
               sortSlice := sortSlice (exampleOS false); ToLower := ToLower (exampleOS false);
               Start := Start (exampleOS false); WriteFile := WriteFile (exampleOS false) |} in
  importBookmarks os emptyState
  = Returned (emptyState,
              ["Could not find any supported browser bookmarks on default paths."]).
Proof.
  intros os.
  apply (importBookmarks_unsupported_os os emptyState); try discriminate.
  intros V l. reflexivity.
Defined.

Lemma firefoxWalkFn_dir os path name readErr entries err v :
  firefoxWalkFn os path (Some (Dir name readErr entries)) err v = (v, None).
Proof. unfold firefoxWalkFn. by destruct err. Qed.

Lemma firefoxWalkFn_found os path d err v :
  foundFirefoxDB v = true -> foundFirefoxDB (fst (firefoxWalkFn os path d err v)) = true.
Proof.
  intros Hv. unfold firefoxWalkFn. destruct err; [done|]. destruct d as [d|]; [|done].
  destruct (negb (entryIsDir d) && String.eqb (entryName d) "places.sqlite"); [|done].
  by destruct (importFromFirefox os path (ivState v)) as [st [e|]].
Qed.

Lemma walkDir_found os d path v :
  foundFirefoxDB v = true ->
  foundFirefoxDB (fst (walkDir (Join os) (firefoxWalkFn os) path d v)) = true.
Proof.
  revert path v.
  assert (PreOrder (fun v v' : importVars =>
                      foundFirefoxDB v = true -> foundFirefoxDB v' = true)) as Hpre.
  { split; [by intros ?|]. intros v1 v2 v3 H12 H23 H1. by apply H23, H12. }
  apply (@walkDir_invariant _ (Join os) (firefoxWalkFn os) _ Hpre).
  intros. by apply firefoxWalkFn_found.
Qed.

Lemma walkDir_database os d : forall path v,
  (hasDatabaseFile d = false ->
   walkDir (Join os) (firefoxWalkFn os) path d v = (v, None)) /\
  (hasDatabaseFile d = true ->
   foundFirefoxDB (fst (walkDir (Join os) (firefoxWalkFn os) path d v)) = true).
Proof.
  induction d as [name|name readErr entries IH] using fsEntry_forall_ind; intros path v.
  - cbn [walkDir hasDatabaseFile]. rewrite firefoxWalkFn_file.
    destruct (String.eqb name "places.sqlite"); split; try done.
    intros _. cbn [fst]. unfold firefoxWalkFn. simpl.
    by destruct (importFromFirefox os path (ivState v)) as [st [e|]].
  - assert (walkDir (Join os) (firefoxWalkFn os) path (Dir name readErr entries) v
            = walkDir (Join os) (firefoxWalkFn os) path (Dir name None entries) v) as ->.
    { cbn [walkDir]. rewrite !firefoxWalkFn_dir. destruct readErr; [|done].
      by rewrite firefoxWalkFn_dir. }
    cbn [hasDatabaseFile]. revert v.
    induction IH as [|e es He _ IHes]; intros v.
    + split; [|done]. intros _. cbn [walkDir]. by rewrite firefoxWalkFn_dir.
    + cbn [existsb].
      assert (forall w,
                walkDir (Join os) (firefoxWalkFn os) path (Dir name None (e :: es)) w
                = match walkDir (Join os) (firefoxWalkFn os) (Join os path (entryName e)) e w
                  with
                  | (st, Some SkipDir) => (st, None)
                  | (st, Some err) => (st, Some err)
                  | (st, None) =>
                      walkDir (Join os) (firefoxWalkFn os) path (Dir name None es) st
                  end) as Hstep.
      { intros w. cbn [walkDir]. rewrite !firefoxWalkFn_dir.
        destruct (walkDir (Join os) (firefoxWalkFn os) (Join os path (entryName e)) e w)
          as [st [[| |err]|]]; done. }
      rewrite Hstep. destruct (He (Join os path (entryName e)) v) as [Hno Hyes].
      destruct (hasDatabaseFile e).
      * split; [done|]. intros _. specialize (Hyes eq_refl).
        destruct (walkDir (Join os) (firefoxWalkFn os) (Join os path (entryName e)) e v)
          as [st [[| |err]|]]; try done.
        by apply walkDir_found.
      * rewrite (Hno eq_refl). cbn [orb]. apply IHes.
Qed.

(** X14. The Firefox part of a run sets its found-database flag exactly
    when a file named [places.sqlite] lies somewhere under the Firefox
    directory (a directory of that name does not count, nor does a root
    that cannot be examined).  When there is none it leaves the state and
    the found-any-browser flag as they were and prints the notice that no
    [places.sqlite] was found. *)
Theorem importFirefox_reports_missing_database (os : OS) (dirs : gmap string string)
  (dir : string) (v : importVars) :
  dirs !! "firefox_dir" = Some dir ->
  let present := match Lstat os dir with Some d => hasDatabaseFile d | None => false end in
  foundFirefoxDB (importFirefox os dirs v) = present /\
  (present = false ->
   importFirefox os dirs v
   = mkVars (ivState v) (foundAnyBrowser v) false
            (stdout v ++ ["Notice: Could not find a Firefox 'places.sqlite' file."])).
Proof.
  intros Hdir present. unfold importFirefox. rewrite Hdir.
  set (v0 := mkVars (ivState v) (foundAnyBrowser v) false (stdout v)).
  unfold WalkDir. subst present. destruct (Lstat os dir) as [d|].
  - destruct (walkDir_database os d dir v0) as [Hno Hyes].
    destruct (hasDatabaseFile d).
    + specialize (Hyes eq_refl). split; [|done].
      destruct (walkDir (Join os) (firefoxWalkFn os) dir d v0) as [st [[| |err]|]];
        simpl in *; by rewrite Hyes.
    + by rewrite (Hno eq_refl).
  - done.
Qed.

Lemma importFirefox_reports_missing_database_witness :
  let os := {| GOOS := "linux"; HomeDir := Some "/home/u";
               Join := Join (exampleOS false); Stat := fun _ => false;
               ReadFile := ReadFile (exampleOS false);
               Lstat := fun _ => Some (Dir "firefox" None
                                          [Dir "places.sqlite" None [File "lock"];
                                           File "profiles.ini"]);
               Query := Query (exampleOS false); mapOrder := mapOrder (exampleOS false);
               sortSlice := sortSlice (exampleOS false); ToLower := ToLower (exampleOS false);
               Start := Start (exampleOS false); WriteFile := WriteFile (exampleOS false) |} in
  foundFirefoxDB (importFirefox os (snd (browserPathTables os "/home/u"))
                                (mkVars emptyState false false []))
  = false.
Proof.
  intros os.
  apply (proj1 (importFirefox_reports_missing_database os
                  (snd (browserPathTables os "/home/u"))
                  "/home/u/.mozilla/firefox" (mkVars emptyState false false [])
                  ltac:(vm_compute; reflexivity))).
Defined.

(** ** The table of paths *)

(** X22. [getBrowserPaths] gives every browser exactly one candidate
    path; the browsers are among Chrome, Brave and Edge, and Edge is not a
    candidate on linux; a Firefox directory is given exactly on darwin,
    linux and windows.  These are the tables it returns when the lookup of
    the current user succeeded; when the lookup failed it panics. *)
Theorem getBrowserPaths_table (os : OS) :
  (HomeDir os = None -> exists msg, getBrowserPaths os = Panicked msg) /\
  (forall homeDir,
     HomeDir os = Some homeDir ->
     exists chromeLikePaths firefoxDirs,
       getBrowserPaths os = Returned (chromeLikePaths, firefoxDirs) /\
       (forall browser paths,
          chromeLikePaths !! browser = Some paths ->
          (exists path, paths = [path]) /\
          (browser = "Chrome" \/ browser = "Brave" \/ browser = "Edge") /\
          (browser = "Edge" -> GOOS os <> "linux")) /\
       (is_Some (firefoxDirs !! "firefox_dir") <->
        GOOS os = "darwin" \/ GOOS os = "linux" \/ GOOS os = "windows")).
Proof.
  unfold getBrowserPaths. split; [intros ->; by eexists|].
  intros homeDir ->.
  exists (fst (browserPathTables os homeDir)), (snd (browserPathTables os homeDir)).
  split; [by destruct (browserPathTables os homeDir)|].
  unfold browserPathTables.
  destruct (String.eqb_spec (GOOS os) "darwin") as [Hd|Hd];
    [|destruct (String.eqb_spec (GOOS os) "linux") as [Hl|Hl];
      [|destruct (String.eqb_spec (GOOS os) "windows") as [Hw|Hw]]];
    cbn [fst snd]; split.
  - intros browser paths H. rewrite Hd.
    repeat (apply lookup_insert_Some in H as [[<- <-]|[_ H]]; [by eauto 6|]).
    by rewrite lookup_empty in H.
  - rewrite lookup_insert_eq. split; [by left | by eexists].
  - intros browser paths H.
    repeat (apply lookup_insert_Some in H as [[<- <-]|[_ H]]; [by eauto 6|]).
    by rewrite lookup_empty in H.
  - rewrite lookup_insert_eq. split; [by right; left | by eexists].
  - intros browser paths H. rewrite Hw.
    repeat (apply lookup_insert_Some in H as [[<- <-]|[_ H]]; [by eauto 6|]).
    by rewrite lookup_empty in H.
  - rewrite lookup_insert_eq. split; [by right; right | by eexists].
  - intros browser paths H. by rewrite lookup_empty in H.
  - rewrite lookup_empty. split; [by intros [? ?] | by intros [?|[?|?]]].
Qed.

(** ** The session *)

Lemma repl_exit_line os before line after s out :
  isExitLine line ->
  repl os (before ++ line :: after) s out = repl os (before ++ [line]) s out.
Proof.
  intros (command & args & Hin & Hc).
  assert (forall st, handleCommand os st line = Returned (true, st, [])) as Hexit.
  { intros st. unfold handleCommand. rewrite Hin. by destruct Hc as [-> | ->]. }
  revert s out. induction before as [|l before IH]; intros s out; simpl.
  - by rewrite Hexit.
  - destruct (handleCommand os s l) as [[[[] s'] printed]|msg]; [done| |done]. apply IH.
Qed.

(** X15. The session ends at the first command line whose first token is
    [exit] or [quit]: the lines after it are never run, whatever they are;
    the program behaves as if the input had ended there. *)
Theorem main_stops_at_exit (os : OS) (file : readState)
  (before after : list string) (line : string) :
  isExitLine line ->
  main os file (before ++ line :: after) = main os file (before ++ [line]).
Proof.
  intros Hexit. unfold main.
  destruct (loadState (GOOS os) file) as [[[state|] [err|]]|msg]; try done.
  by rewrite repl_exit_line.
Qed.

Lemma main_stops_at_exit_witness :
  main (exampleOS false) (FileData (Unmarshaled [] (mkConfig "")))
       (["import"] ++ "quit now" :: ["open 1"; "fav 1"])
  = main (exampleOS false) (FileData (Unmarshaled [] (mkConfig "")))
         (["import"] ++ ["quit now"]).
Proof.
  apply main_stops_at_exit. exists "quit", ["now"]. split; [reflexivity | by right].
Defined.

Lemma repl_effects os stdin s out s' out' :
  repl os stdin s out = Returned (s', out') -> rtc (commandEffect os) s s'.
Proof.
  revert s out. induction stdin as [|line stdin IH]; intros s out; simpl.
  - intros [= <- _]. constructor.
  - destruct (handleCommand os s line) as [[[e s1] printed]|msg] eqn:E; [|done].
    apply handleCommand_effect in E. destruct e.
    + intros [= <- _]. by apply rtc_once.
    + intros H. eapply rtc_l; [exact E | by eapply IH].
Qed.

(** X16. A session that ends without a crash loses nothing: the
    collection handed to the final save holds, up to order, the
    (identifier, name, URL) entries of every bookmark that was loaded
    (followed by those of bookmarks added since), the exit code is 0, and
    when the loaded URLs were pairwise distinct so are the saved ones. *)
Theorem main_keeps_bookmarks (os : OS) (bs : list Bookmark) (cfg : Config)
  (stdin : list string) (r : mainResult) :
  sortsSlices os ->
  main os (FileData (Unmarshaled bs cfg)) stdin = Returned r ->
  exitCode r = 0 /\
  exists bs' cfg' added,
    written r = Some (bs', cfg') /\
    Permutation (map entry bs') (map entry bs ++ added) /\
    (NoDup (map URL bs) -> NoDup (map URL bs')).
Proof.
  intros Hsort. unfold main.
  assert (exists s0, loadState (GOOS os) (FileData (Unmarshaled bs cfg))
                     = Returned (Some s0, None) /\ Bookmarks s0 = bs) as (s0 & -> & Hbs).
  { unfold loadState. simpl. destruct (0 <? Z.of_nat (length bs)); by eexists. }
  destruct (repl os stdin s0 _) as [[s1 out]|msg] eqn:Hrepl; [|done].
  apply repl_effects in Hrepl.
  assert (exists added, Permutation (map entry (Bookmarks s1)) (map entry bs ++ added)) as Hent.
  { rewrite <- Hbs. clear Hbs. induction Hrepl as [s|s s' s'' Hstep _ IH].
    - exists []. by rewrite app_nil_r.
    - destruct (commandEffect_entries os s s' Hsort Hstep) as (added1 & Hp1 & _).
      destruct IH as [added2 Hp2]. exists (map entry added1 ++ added2).
      by rewrite Hp2, Hp1, <- app_assoc. }
  assert (NoDup (map URL bs) -> NoDup (map URL (Bookmarks s1))) as Huniq.
  { rewrite <- Hbs. clear Hbs Hent. induction Hrepl as [s|s s' s'' Hstep _ IH]; [done|].
    intros Hu. by apply IH, (commandEffect_uniqueURLs os s s'). }
  destruct Hent as [added Hent].
  destruct (saveState os s1); intros [= <-]; simpl;
    (split; [done|]); by exists (Bookmarks s1), (config s1), added.
Qed.

Lemma main_keeps_bookmarks_witness :
  exists r,
    main (exampleOS false)
         (FileData (Unmarshaled [ {| ID := 7; Name := "Z"; URL := "http://z"; Favorite := true |} ]
                                (mkConfig "xdg-open")))
         ["import"; "list"; "fav 7"; "exit"] = Returned r /\
    exitCode r = 0.
Proof.
  destruct (main (exampleOS false)
              (FileData (Unmarshaled [ {| ID := 7; Name := "Z"; URL := "http://z";
                                          Favorite := true |} ] (mkConfig "xdg-open")))
              ["import"; "list"; "fav 7"; "exit"]) as [r|msg] eqn:E;
    [|vm_compute in E; discriminate E].
  exists r. split; [done|].
  by destruct (main_keeps_bookmarks (exampleOS false) _ _ _ r (exampleOS_sortsSlices false) E).
Defined.

(** ** The [set-browser] command *)

(** X17. [set-browser <program> <arguments...>] stores a command that
    [open] splits into the very tokens that were typed, however they were
    spaced: after the command the tokens of the stored browser command are
    the arguments given; bookmarks and next identifier are unchanged. *)
Theorem set_browser_keeps_tokens (os : OS) (s : AppState) (input program : string)
  (arguments : list string) :
  Fields input = "set-browser" :: program :: arguments ->
  exists s' out,
    handleCommand os s input = Returned (false, s', out) /\
    Fields (DefaultBrowserCmd (config s')) = program :: arguments /\
    Bookmarks s' = Bookmarks s /\ nextID s' = nextID s.
Proof.
  intros Hin. unfold handleCommand. rewrite Hin.
  change (String.eqb "set-browser" "list" || String.eqb "set-browser" "ls") with false.
  change (String.eqb "set-browser" "open") with false.
  change (String.eqb "set-browser" "fav") with false.
  change (String.eqb "set-browser" "import") with false.
  change (String.eqb "set-browser" "set-browser") with true. cbv iota.
  unfold cmdSetBrowser. eexists _, _. split; [reflexivity|].
  cbn [config DefaultBrowserCmd Bookmarks nextID]. split; [|done].
  apply Fields_JoinStrings.
  pose proof (Fields_tokens input) as Htok. rewrite Hin in Htok.
  by apply Forall_cons in Htok as [_ Htok].
Qed.

Lemma set_browser_keeps_tokens_witness :
  exists s' out,
    handleCommand (exampleOS false) emptyState "set-browser   cmd /c	start"
    = Returned (false, s', out) /\
    Fields (DefaultBrowserCmd (config s')) = ["cmd"; "/c"; "start"].
Proof.
  destruct (set_browser_keeps_tokens (exampleOS false) emptyState
              "set-browser   cmd /c	start" "cmd" ["/c"; "start"] eq_refl)
    as (s' & out & Hrun & Hf & _).
  by exists s', out.
Defined.

(** ** Sessions that cannot crash *)

Lemma commandEffect_hasBrowserCmd os s s' :
  commandEffect os s s' -> hasBrowserCmd s -> hasBrowserCmd s'.
Proof.
  intros Heff Hcmd.
  destruct Heff as [| |id bs line Hfav|s'' out Himp|args Hne Htok]; try done.
  - destruct (importBookmarks_state os s s'' out Himp) as [l ->]. unfold hasBrowserCmd.
    by rewrite addBookmarks_config.
  - unfold hasBrowserCmd. simpl. by rewrite Fields_JoinStrings.
Qed.

(** X18. With a browser command that has at least one token, on a
    machine where the lookup of the current user succeeds, no command line
    can make [handleCommand] panic: it returns, and the browser command of
    the state it returns has at least one token again. *)
Theorem handleCommand_never_panics (os : OS) (s : AppState) (input : string) :
  hasBrowserCmd s ->
  HomeDir os <> None ->
  exists shouldExit s' out,
    handleCommand os s input = Returned (shouldExit, s', out) /\ hasBrowserCmd s'.
Proof.
  intros Hcmd Hhome. destruct (handleCommand os s input) as [[[e s'] out]|msg] eqn:Hrun.
  - exists e, s', out. split; [done|].
    apply handleCommand_effect in Hrun. by apply (commandEffect_hasBrowserCmd os s s').
  - apply handleCommand_panic_inv in Hrun
      as [(a & rest & id & b & _ & _ & _ & _ & Hnone)|(args & _ & Hnone)]; by destruct Hcmd.
Qed.

Lemma handleCommand_never_panics_witness :
  let s := {| Bookmarks := [ {| ID := 1; Name := "A"; URL := "http://a"; Favorite := false |} ];
              config := {| DefaultBrowserCmd := " xdg-open " |};
              nextID := 2 |} in
  exists shouldExit s' out,
    handleCommand (exampleOS false) s "open 1" = Returned (shouldExit, s', out).
Proof.
  intros s.
  destruct (handleCommand_never_panics (exampleOS false) s "open 1")
    as (e & s' & out & Hrun & _).
  - vm_compute. discriminate.
  - discriminate.
  - exists e, s', out. exact Hrun.
Defined.

Lemma repl_never_panics os stdin s out :
  hasBrowserCmd s -> HomeDir os <> None ->
  exists s' out', repl os stdin s out = Returned (s', out').
Proof.
  intros Hcmd Hhome. revert s out Hcmd.
  induction stdin as [|line stdin IH]; intros s out Hcmd; simpl.
  - by eexists _, _.
  - destruct (handleCommand os s line) as [[[e s1] printed]|msg] eqn:Hrun.
    + pose proof Hrun as Heff. apply handleCommand_effect in Heff.
      apply (commandEffect_hasBrowserCmd os s s1) in Heff; [|done].
      destruct e; [by eexists _, _ | by apply IH].
    + apply handleCommand_panic_inv in Hrun
        as [(a & rest & id & b & _ & _ & _ & _ & Hnone)|(args & _ & Hnone)]; by destruct Hcmd.
Qed.

(** X19. A session never crashes when the lookup of the current user
    succeeds and it starts with a browser command that has at least one
    token, which is the case when [bookmarks.json] holds such a command and
    on a first run on darwin, linux or windows (whose save succeeds):
    whatever the input lines, [main] returns with exit code 0 after
    handing the final state to [saveState]. *)
Theorem main_never_crashes (os : OS) (file : readState) (stdin : list string) :
  HomeDir os <> None ->
  (exists bs cfg, file = FileData (Unmarshaled bs cfg) /\
                  Fields (DefaultBrowserCmd cfg) <> []) \/
  (file = NotExist None /\
   (GOOS os = "darwin" \/ GOOS os = "linux" \/ GOOS os = "windows")) ->
  exists r, main os file stdin = Returned r /\ exitCode r = 0 /\ written r <> None.
Proof.
  intros Hhome Hstart. unfold main.
  assert (exists s0, loadState (GOOS os) file = Returned (Some s0, None) /\ hasBrowserCmd s0)
    as (s0 & -> & Hcmd).
  { destruct Hstart as [(bs & cfg & -> & Hcfg)|[-> Hos]].
    - unfold loadState. simpl. destruct (0 <? Z.of_nat (length bs)); by eexists.
    - unfold loadState. eexists. split; [done|]. unfold hasBrowserCmd. simpl.
      by destruct Hos as [-> | [-> | ->]]. }
  destruct (repl_never_panics os stdin s0
              (loadStateOutput file
               ++ ["Welcome to the Go Bookmark Manager! Type 'help' for commands."]) Hcmd Hhome)
    as (s1 & out1 & ->).
  destruct (saveState os s1); by eexists.
Qed.

Lemma main_never_crashes_witness :
  exists r,
    main (exampleOS false) (NotExist None) ["import"; "open 1"; "set-browser firefox"; "open 2"]
    = Returned r /\ exitCode r = 0.
Proof.
  destruct (main_never_crashes (exampleOS false) (NotExist None)
              ["import"; "open 1"; "set-browser firefox"; "open 2"]) as (r & Hrun & Hcode & _).
  - discriminate.
  - right. split; [reflexivity|]. right. left. reflexivity.
  - exists r. split; [exact Hrun | exact Hcode].
Defined.

(** ** More on the merge policy and on the Firefox reader *)

(** X20. The merge is keyed by the URL alone and the first name wins: a
    second pair with the same URL and any name, merged at any later point,
    changes nothing. *)
Theorem addBookmark_first_name_wins (s : AppState) (name1 name2 url : string)
  (between : list (string * string)) :
  addBookmark (addBookmarks between (addBookmark s name1 url)) name2 url
  = addBookmarks between (addBookmark s name1 url).
Proof.
  apply addBookmark_known.
  eapply urlKnown_prefix; [apply addBookmarks_prefix | apply addBookmark_knows].
Qed.

(** X21. The Firefox reader merges the rows that scan, in order, and
    skips the rows that do not, without stopping at them; when the
    database cannot be opened or queried it returns an error and leaves the
    state as it was. *)
Theorem importFromFirefox_skips_bad_rows (os : OS) (path : string) (s : AppState) :
  match Query os ("file:" +:+ path +:+ "?_immutable=1") with
  | Rows rows =>
      importFromFirefox os path s = (addBookmarks (omap id rows) s, None)
  | _ => exists err, importFromFirefox os path s = (s, Some err)
  end.
Proof.
  unfold importFromFirefox. destruct (Query os _) as [e|e|rows]; [by eexists..|].
  f_equal. apply scanRows_scannedRows.
Qed.
